(** * Interface error/CRC analysis: a shallow embedding of
      [comprehensive_error_analysis.py]

    The development follows the script top-down:

    - Python numbers: unbounded [int] as [Z], [float] as IEEE-754 binary64
      ([spec_float] with [prec = 53], [emax = 1024]), true division with its
      two exceptions;
    - text: [str.strip], the header pattern used with [re.match] and the
      field patterns used with [re.search];
    - the record extractor: the scan loop over the lines, with the
      insertion-ordered [interface_stats] dictionary and the
      [current_interface] cursor;
    - the metrics engine: the filters and the four ratios, inside the
      [try]/[except] of [parse_interface_data];
    - the three report views and the network-wide statistics.

    Printing is not modelled; each [print_*] function is embedded as the data
    it computes and prints. *)

From Stdlib Require Import ZArith NArith List Bool Lia.
From Stdlib Require Import Ascii String.
From Stdlib Require Import Permutation Sorted.
From Stdlib Require Import Floats.SpecFloat.
Import ListNotations.

Open Scope string_scope.
Open Scope Z_scope.

(* ================================================================= *)
(** ** Exceptions *)

(** The exceptions that can reach the handlers of [parse_interface_data]:
    the two raised by [open]/[readlines] and the two raised by [/]. *)
Inductive exn : Type :=
  | FileNotFoundError
  | OSError            (* any other failure of open/readlines *)
  | ZeroDivisionError
  | OverflowError.

Inductive result (A : Type) : Type :=
  | Ok (a : A)
  | Raise (e : exn).
Arguments Ok {A} a.
Arguments Raise {A} e.

Definition bind {A B : Type} (m : result A) (k : A -> result B) : result B :=
  match m with
  | Ok a => k a
  | Raise e => Raise e
  end.

Notation "x <- m ;; k" := (bind m (fun x => k))
  (at level 61, m at next level, right associativity).

(* ================================================================= *)
(** ** Python numbers *)

Definition prec : Z := 53.
Definition emax : Z := 1024.

(** An [int] read as an exact, not yet rounded, binary number [z * 2^0]. *)
Definition Z2SF (z : Z) : spec_float :=
  match z with
  | Z0 => S754_zero false
  | Zpos p => S754_finite false p 0
  | Zneg p => S754_finite true p 0
  end.

(** [a / b] on two [int]s: the correctly rounded quotient;
    [ZeroDivisionError] when [b] is zero, [OverflowError] when the quotient
    is too large for a float. *)
Definition py_truediv (a b : Z) : result spec_float :=
  if b =? 0 then Raise ZeroDivisionError
  else match SFdiv prec emax (Z2SF a) (Z2SF b) with
       | S754_infinity _ => Raise OverflowError
       | q => Ok q
       end.

(** The float literals of the script, and [100] converted for [float * int].
    A decimal literal denotes the double nearest to it, which is what the
    correctly rounded quotient of its numerator and denominator gives. *)
Definition float_lit (num den : Z) : spec_float :=
  SFdiv prec emax (Z2SF num) (Z2SF den).

Definition f100 : spec_float := Eval vm_compute in float_lit 100 1.
Definition f1_0 : spec_float := Eval vm_compute in float_lit 1 1.
Definition f0_1 : spec_float := Eval vm_compute in float_lit 1 10.
Definition f0_01 : spec_float := Eval vm_compute in float_lit 1 100.
Definition f0_001 : spec_float := Eval vm_compute in float_lit 1 1000.

Definition py_fmul (x y : spec_float) : spec_float := SFmul prec emax x y.

(** The value of a ratio field: the [int] literal [0] of the [else] branch,
    or a [float]. *)
Inductive pynum : Type :=
  | PyInt0
  | PyFloat (f : spec_float).

Definition as_float (x : pynum) : spec_float :=
  match x with
  | PyInt0 => S754_zero false
  | PyFloat f => f
  end.

(** [x < y], [x > y], [x >= y], [x == y] on ratio values; an [int] zero
    compares as the float zero does. *)
Definition py_lt (x y : pynum) : bool := SFltb (as_float x) (as_float y).
Definition py_gt (x y : pynum) : bool := py_lt y x.
Definition py_ge (x y : pynum) : bool := SFleb (as_float y) (as_float x).
Definition py_eq (x y : pynum) : bool := SFeqb (as_float x) (as_float y).

Definition is_nan (x : pynum) : bool :=
  match as_float x with
  | S754_nan => true
  | _ => false
  end.

(** [(num / den) * 100 if den > 0 else 0] *)
Definition ratio_pct (num den : Z) : result pynum :=
  if 0 <? den then
    q <- py_truediv num den ;;
    Ok (PyFloat (py_fmul q f100))
  else Ok PyInt0.

(** [sum(...)] over [int]s: a left-to-right accumulation from [0]. *)
Definition py_sum (l : list Z) : Z := fold_left Z.add l 0.

(* ================================================================= *)
(** ** Text: character classes, [strip], and the patterns *)

Definition code (c : ascii) : N := N_of_ascii c.

(** A character is a code point below 256.  [str.isspace] and [\s]: *)
Definition is_space (c : ascii) : bool :=
  let n := code c in
  ((9 <=? n) && (n <=? 13) || (28 <=? n) && (n <=? 32)
   || (n =? 133) || (n =? 160))%N.

Definition is_digit (c : ascii) : bool :=
  let n := code c in ((48 <=? n) && (n <=? 57))%N.

Definition is_alpha (c : ascii) : bool :=
  let n := code c in
  ((65 <=? n) && (n <=? 90) || (97 <=? n) && (n <=? 122))%N.

(** [[A-Za-z0-9\-\.\/]] *)
Definition is_name_char (c : ascii) : bool :=
  let n := code c in
  (is_alpha c || is_digit c || (n =? 45) || (n =? 46) || (n =? 47))%N.

Definition is_newline (c : ascii) : bool := (code c =? 10)%N.

Definition is_empty (s : string) : bool :=
  match s with
  | EmptyString => true
  | String _ _ => false
  end.

Fixpoint lstrip (s : string) : string :=
  match s with
  | String c s' => if is_space c then lstrip s' else s
  | EmptyString => EmptyString
  end.

Fixpoint rstrip (s : string) : string :=
  match s with
  | String c s' =>
      let r := rstrip s' in
      if is_space c && is_empty r then EmptyString else String c r
  | EmptyString => EmptyString
  end.

(** [line.strip()] *)
Definition strip (s : string) : string := rstrip (lstrip s).

(** The longest prefix of characters satisfying [p], and the rest. *)
Fixpoint span (p : ascii -> bool) (s : string) : string * string :=
  match s with
  | String c s' =>
      if p c then let (a, b) := span p s' in (String c a, b)
      else (EmptyString, s)
  | EmptyString => (EmptyString, EmptyString)
  end.

Fixpoint strip_prefix (p s : string) : option string :=
  match p with
  | EmptyString => Some s
  | String a p' =>
      match s with
      | String b s' => if Ascii.eqb a b then strip_prefix p' s' else None
      | EmptyString => None
      end
  end.

Definition starts_with (p s : string) : bool :=
  match strip_prefix p s with
  | Some _ => true
  | None => false
  end.

(** [int(group)] on a run of decimal digits.  The conversion is taken as
    total: the bound that recent interpreters put on the number of digits
    of a converted string (4300 unless configured) is left out. *)
Definition digit_value (c : ascii) : Z := Z.of_N (code c) - 48.

Fixpoint int_acc (acc : Z) (s : string) : Z :=
  match s with
  | String c s' => int_acc (10 * acc + digit_value c) s'
  | EmptyString => acc
  end.

Definition py_int (s : string) : Z := int_acc 0 s.

(** [re.match(r'^([A-Za-z][A-Za-z0-9\-\.\/]+)\s+is\s+(up|down)', line)],
    returning [group(1)].  Every repetition is followed by a character
    outside its class, so each takes the whole run. *)
Definition interface_match (line : string) : option string :=
  match line with
  | String c rest =>
      if is_alpha c then
        let (nm, r1) := span is_name_char rest in
        if is_empty nm then None else
        let (w1, r2) := span is_space r1 in
        if is_empty w1 then None else
        match strip_prefix "is" r2 with
        | Some r3 =>
            let (w2, r4) := span is_space r3 in
            if is_empty w2 then None else
            if starts_with "up" r4 || starts_with "down" r4
            then Some (String c nm) else None
        | None => None
        end
      else None
  | EmptyString => None
  end.

(** The field patterns are sequences of three kinds of item: a literal, a
    captured [(\d+)], and the lazy [.*?]. *)
Inductive re_item : Type :=
  | Lit (s : string)
  | Num
  | Skip.

Definition pattern := list re_item.

(** Matching a pattern at the start of [s], returning the captured groups
    converted with [int].  [(\d+)] is always followed by a literal that
    starts with a space, so it captures the whole run of digits at its
    position; [.*?] tries the rest of the pattern at each next position in
    turn and does not cross a newline. *)
Fixpoint match_at (p : pattern) : string -> option (list Z) :=
  match p with
  | [] => fun _ => Some []
  | Lit l :: p' => fun s =>
      match strip_prefix l s with
      | Some s' => match_at p' s'
      | None => None
      end
  | Num :: p' => fun s =>
      let (ds, s') := span is_digit s in
      if is_empty ds then None
      else option_map (cons (py_int ds)) (match_at p' s')
  | Skip :: p' =>
      let here := match_at p' in
      fix skip (s : string) : option (list Z) :=
        match here s with
        | Some g => Some g
        | None =>
            match s with
            | String c s' => if is_newline c then None else skip s'
            | EmptyString => None
            end
        end
  end.

(** [re.search(p, s)]: the match at the leftmost position that has one. *)
Fixpoint re_search (p : pattern) (s : string) : option (list Z) :=
  match match_at p s with
  | Some g => Some g
  | None =>
      match s with
      | String _ s' => re_search p s'
      | EmptyString => None
      end
  end.

Definition input_rate_re : pattern :=
  [Lit "5 minute input rate"; Skip; Num; Lit " packets/sec"].
Definition output_rate_re : pattern :=
  [Lit "5 minute output rate"; Skip; Num; Lit " packets/sec"].
Definition input_packets_re : pattern :=
  [Num; Lit " packets input"; Skip; Num; Lit " total input drops"].
Definition output_packets_re : pattern :=
  [Num; Lit " packets output"; Skip; Num; Lit " total output drops"].
Definition error_re : pattern :=
  [Num; Lit " input errors, "; Num; Lit " CRC, "; Num; Lit " frame, ";
   Num; Lit " overrun, "; Num; Lit " ignored, "; Num; Lit " abort"].
Definition output_error_re : pattern :=
  [Num; Lit " output errors, "; Num; Lit " underruns"].

(** [m.group(k)] on the captured groups, [k] counted from 1. *)
Definition group (m : list Z) (k : nat) : Z := nth (pred k) m 0.

(* ================================================================= *)
(** ** The record extractor *)

(** The per-interface dictionary built by the scan: one entry per key of
    the literal in the source. *)
Module Raw.

Record stats : Type := mk {
  name : string;
  input_packets : Z;
  output_packets : Z;
  input_rate : Z;
  output_rate : Z;
  input_errors : Z;
  crc_errors : Z;
  frame_errors : Z;
  overrun_errors : Z;
  ignored_errors : Z;
  abort_errors : Z;
  output_errors : Z;
  underruns : Z;
  input_drops : Z;
  output_drops : Z
}.

(** The dictionary literal assigned at a header line. *)
Definition init (nm : string) : stats :=
  mk nm 0 0 0 0 0 0 0 0 0 0 0 0 0 0.

Definition set_input_packets (v : Z) (d : stats) : stats :=
  let '(mk nm ip op ir or ie crc fr ov ig ab oe un idr odr) := d in
  mk nm v op ir or ie crc fr ov ig ab oe un idr odr.
Definition set_output_packets (v : Z) (d : stats) : stats :=
  let '(mk nm ip op ir or ie crc fr ov ig ab oe un idr odr) := d in
  mk nm ip v ir or ie crc fr ov ig ab oe un idr odr.
Definition set_input_rate (v : Z) (d : stats) : stats :=
  let '(mk nm ip op ir or ie crc fr ov ig ab oe un idr odr) := d in
  mk nm ip op v or ie crc fr ov ig ab oe un idr odr.
Definition set_output_rate (v : Z) (d : stats) : stats :=
  let '(mk nm ip op ir or ie crc fr ov ig ab oe un idr odr) := d in
  mk nm ip op ir v ie crc fr ov ig ab oe un idr odr.
Definition set_input_errors (v : Z) (d : stats) : stats :=
  let '(mk nm ip op ir or ie crc fr ov ig ab oe un idr odr) := d in
  mk nm ip op ir or v crc fr ov ig ab oe un idr odr.
Definition set_crc_errors (v : Z) (d : stats) : stats :=
  let '(mk nm ip op ir or ie crc fr ov ig ab oe un idr odr) := d in
  mk nm ip op ir or ie v fr ov ig ab oe un idr odr.
Definition set_frame_errors (v : Z) (d : stats) : stats :=
  let '(mk nm ip op ir or ie crc fr ov ig ab oe un idr odr) := d in
  mk nm ip op ir or ie crc v ov ig ab oe un idr odr.
Definition set_overrun_errors (v : Z) (d : stats) : stats :=
  let '(mk nm ip op ir or ie crc fr ov ig ab oe un idr odr) := d in
  mk nm ip op ir or ie crc fr v ig ab oe un idr odr.
Definition set_ignored_errors (v : Z) (d : stats) : stats :=
  let '(mk nm ip op ir or ie crc fr ov ig ab oe un idr odr) := d in
  mk nm ip op ir or ie crc fr ov v ab oe un idr odr.
Definition set_abort_errors (v : Z) (d : stats) : stats :=
  let '(mk nm ip op ir or ie crc fr ov ig ab oe un idr odr) := d in
  mk nm ip op ir or ie crc fr ov ig v oe un idr odr.
Definition set_output_errors (v : Z) (d : stats) : stats :=
  let '(mk nm ip op ir or ie crc fr ov ig ab oe un idr odr) := d in
  mk nm ip op ir or ie crc fr ov ig ab v un idr odr.
Definition set_underruns (v : Z) (d : stats) : stats :=
  let '(mk nm ip op ir or ie crc fr ov ig ab oe un idr odr) := d in
  mk nm ip op ir or ie crc fr ov ig ab oe v idr odr.
Definition set_input_drops (v : Z) (d : stats) : stats :=
  let '(mk nm ip op ir or ie crc fr ov ig ab oe un idr odr) := d in
  mk nm ip op ir or ie crc fr ov ig ab oe un v odr.
Definition set_output_drops (v : Z) (d : stats) : stats :=
  let '(mk nm ip op ir or ie crc fr ov ig ab oe un idr odr) := d in
  mk nm ip op ir or ie crc fr ov ig ab oe un idr v.

End Raw.

(** [interface_stats]: a [dict] keyed by interface name.  Iteration follows
    insertion order, and assigning to a key already present keeps its
    position. *)
Definition dict : Type := list (string * Raw.stats).

Fixpoint dict_get (k : string) (d : dict) : option Raw.stats :=
  match d with
  | [] => None
  | (k', v) :: d' => if String.eqb k k' then Some v else dict_get k d'
  end.

(** [k in d] *)
Definition dict_mem (k : string) (d : dict) : bool :=
  match dict_get k d with
  | Some _ => true
  | None => false
  end.

(** [d[k] = v] *)
Fixpoint dict_set (k : string) (v : Raw.stats) (d : dict) : dict :=
  match d with
  | [] => [(k, v)]
  | (k', v') :: d' =>
      if String.eqb k k' then (k, v) :: d'
      else (k', v') :: dict_set k v d'
  end.

(** [d[k][field] = ...] for a key that is present: the inner dictionary is
    updated in place. *)
Fixpoint dict_update (k : string) (f : Raw.stats -> Raw.stats) (d : dict)
  : dict :=
  match d with
  | [] => []
  | (k', v') :: d' =>
      if String.eqb k k' then (k', f v') :: d'
      else (k', v') :: dict_update k f d'
  end.

Definition dict_keys (d : dict) : list string := map fst d.

(** The two variables the scan loop carries from line to line. *)
Record scan_state : Type := {
  current_interface : option string;
  interface_stats : dict
}.

Definition scan_init : scan_state :=
  {| current_interface := None; interface_stats := [] |}.

(** The chain of [re.search] tests on a line that is not a header: the
    assignments of the first pattern that matches, if any. *)
Definition field_update (line : string) : option (Raw.stats -> Raw.stats) :=
  match re_search input_rate_re line with
  | Some m => Some (Raw.set_input_rate (group m 1))
  | None =>
  match re_search output_rate_re line with
  | Some m => Some (Raw.set_output_rate (group m 1))
  | None =>
  match re_search input_packets_re line with
  | Some m => Some (fun d =>
      Raw.set_input_drops (group m 2) (Raw.set_input_packets (group m 1) d))
  | None =>
  match re_search output_packets_re line with
  | Some m => Some (fun d =>
      Raw.set_output_drops (group m 2) (Raw.set_output_packets (group m 1) d))
  | None =>
  match re_search error_re line with
  | Some m => Some (fun d =>
      Raw.set_abort_errors (group m 6)
        (Raw.set_ignored_errors (group m 5)
          (Raw.set_overrun_errors (group m 4)
            (Raw.set_frame_errors (group m 3)
              (Raw.set_crc_errors (group m 2)
                (Raw.set_input_errors (group m 1) d))))))
  | None =>
  match re_search output_error_re line with
  | Some m => Some (fun d =>
      Raw.set_underruns (group m 2) (Raw.set_output_errors (group m 1) d))
  | None => None
  end end end end end end.

(** One iteration of [for line in lines]. *)
Definition scan_line (st : scan_state) (raw_line : string) : scan_state :=
  let line := strip raw_line in
  match interface_match line with
  | Some nm =>
      {| current_interface := Some nm;
         interface_stats := dict_set nm (Raw.init nm) (interface_stats st) |}
  | None =>
      match current_interface st with
      | Some cur =>
          if negb (is_empty cur) && dict_mem cur (interface_stats st) then
            match field_update line with
            | Some f =>
                {| current_interface := Some cur;
                   interface_stats := dict_update cur f (interface_stats st) |}
            | None => st
            end
          else st
      | None => st
      end
  end.

Definition scan_lines (lines : list string) : scan_state :=
  fold_left scan_line lines scan_init.

(* ================================================================= *)
(** ** The metrics engine *)

Record InterfaceData : Type := {
  name : string;
  input_packets : Z;
  output_packets : Z;
  total_packets : Z;
  input_rate : Z;
  output_rate : Z;
  input_errors : Z;
  crc_errors : Z;
  frame_errors : Z;
  overrun_errors : Z;
  ignored_errors : Z;
  abort_errors : Z;
  output_errors : Z;
  underruns : Z;
  input_drops : Z;
  output_drops : Z;
  error_crc_ratio : pynum;
  error_ratio : pynum;
  crc_ratio : pynum;
  output_error_ratio : pynum
}.

(** The body of [for name, data in interface_stats.items()]: [Ok None] for
    a record skipped by one of the two [continue]s, [Ok (Some i)] for the
    record appended. *)
Definition process_entry (data : Raw.stats)
  : result (option InterfaceData) :=
  let total := Raw.input_packets data + Raw.output_packets data in
  if total =? 0 then Ok None
  else
    let max_rate := Z.max (Raw.input_rate data) (Raw.output_rate data) in
    if max_rate <? 100000 then Ok None
    else
      let error_crc_sum := Raw.input_errors data + Raw.crc_errors data in
      r1 <- ratio_pct error_crc_sum (Raw.input_packets data) ;;
      r2 <- ratio_pct (Raw.input_errors data) (Raw.input_packets data) ;;
      r3 <- ratio_pct (Raw.crc_errors data) (Raw.input_packets data) ;;
      r4 <- ratio_pct (Raw.output_errors data) (Raw.output_packets data) ;;
      Ok (Some {|
        name := Raw.name data;
        input_packets := Raw.input_packets data;
        output_packets := Raw.output_packets data;
        total_packets := total;
        input_rate := Raw.input_rate data;
        output_rate := Raw.output_rate data;
        input_errors := Raw.input_errors data;
        crc_errors := Raw.crc_errors data;
        frame_errors := Raw.frame_errors data;
        overrun_errors := Raw.overrun_errors data;
        ignored_errors := Raw.ignored_errors data;
        abort_errors := Raw.abort_errors data;
        output_errors := Raw.output_errors data;
        underruns := Raw.underruns data;
        input_drops := Raw.input_drops data;
        output_drops := Raw.output_drops data;
        error_crc_ratio := r1;
        error_ratio := r2;
        crc_ratio := r3;
        output_error_ratio := r4
      |}).

(** The second loop: the entries are visited in dictionary order and the
    first exception ends the loop. *)
Fixpoint process_stats (d : dict) : result (list InterfaceData) :=
  match d with
  | [] => Ok []
  | (_, data) :: d' =>
      o <- process_entry data ;;
      rest <- process_stats d' ;;
      Ok (match o with
          | Some i => i :: rest
          | None => rest
          end)
  end.

(** What the [except] clauses print. *)
Inductive message : Type :=
  | FileNotFoundMsg (filename : string)   (* "Error: File ... not found" *)
  | ParseErrorMsg (e : exn).              (* "Error parsing file: ..." *)

(** The body of the [try]: [file] is the outcome of opening the file and
    reading its lines. *)
Definition try_body (file : result (list string))
  : result (list InterfaceData) :=
  lines <- file ;;
  process_stats (interface_stats (scan_lines lines)).

(** [parse_interface_data(filename)]: the messages printed and the list
    returned. *)
Definition parse_interface_data (filename : string)
    (file : result (list string)) : list message * list InterfaceData :=
  match try_body file with
  | Ok interfaces => ([], interfaces)
  | Raise FileNotFoundError => ([FileNotFoundMsg filename], [])
  | Raise e => ([ParseErrorMsg e], [])
  end.

(* ================================================================= *)
(** ** Ranking and classification *)

Inductive Severity : Type := CRITICAL | HIGH | MEDIUM | LOW | GOOD.

Section Sorted.
Context {A : Type} (key : A -> pynum).

(** [x] goes in front of the first element whose key is not above its
    own, so that it stays ahead of the elements it ties with. *)
Fixpoint insert_desc (x : A) (l : list A) : list A :=
  match l with
  | [] => [x]
  | y :: l' =>
      if py_lt (key x) (key y) then y :: insert_desc x l' else x :: l
  end.

(** [sorted(l, key=key, reverse=True)].  The built-in sort is stable, also
    with [reverse=True]; for keys that [<] orders totally its result is
    the descending arrangement in which ties keep their input order, which
    is what inserting the elements from the last to the first builds. *)
Definition sorted_desc (l : list A) : list A :=
  fold_right insert_desc [] l.
End Sorted.

(** [enumerate(l, 1)] *)
Definition enumerate1 {A : Type} (l : list A) : list (nat * A) :=
  combine (seq 1 (List.length l)) l.

(** The four-way [if]/[elif] chain of the two top-N tables. *)
Definition status_of (r : pynum) : Severity :=
  if py_gt r (PyFloat f1_0) then CRITICAL
  else if py_gt r (PyFloat f0_1) then HIGH
  else if py_gt r (PyFloat f0_01) then MEDIUM
  else LOW.

Definition problem_interfaces (interfaces : list InterfaceData)
  : list InterfaceData :=
  filter (fun i => py_gt (error_crc_ratio i) PyInt0) interfaces.

Definition top_10 (interfaces : list InterfaceData) : list InterfaceData :=
  firstn 10 (sorted_desc error_crc_ratio (problem_interfaces interfaces)).

Record top_row : Type := {
  rank : nat;
  row_interface : InterfaceData;
  status : Severity
}.

(** [print_top_10_analysis]: the rows of the table, none after the early
    [return] on an empty list. *)
Definition print_top_10_analysis (interfaces : list InterfaceData)
  : list top_row :=
  match interfaces with
  | [] => []
  | _ =>
      map (fun ri => {| rank := fst ri;
                        row_interface := snd ri;
                        status := status_of (error_crc_ratio (snd ri)) |})
          (enumerate1 (top_10 interfaces))
  end.

Definition output_error_interfaces (interfaces : list InterfaceData)
  : list InterfaceData :=
  filter (fun i => py_gt (output_error_ratio i) PyInt0) interfaces.

Definition top_5_output (interfaces : list InterfaceData)
  : list InterfaceData :=
  firstn 5
    (sorted_desc output_error_ratio (output_error_interfaces interfaces)).

(** [print_top_5_output_errors]: the rows of the table, none after the
    early [return] when no interface has output errors. *)
Definition print_top_5_output_errors (interfaces : list InterfaceData)
  : list top_row :=
  match output_error_interfaces interfaces with
  | [] => []
  | _ =>
      map (fun ri => {| rank := fst ri;
                        row_interface := snd ri;
                        status := status_of (output_error_ratio (snd ri)) |})
          (enumerate1 (top_5_output interfaces))
  end.

(** The five-way chain of the complete table. *)
Definition classification_of (interface : InterfaceData) : Severity :=
  let error_crc_sum := input_errors interface + crc_errors interface in
  if py_gt (error_crc_ratio interface) (PyFloat f0_1) then CRITICAL
  else if py_gt (error_crc_ratio interface) (PyFloat f0_01) then HIGH
  else if py_gt (error_crc_ratio interface) (PyFloat f0_001) then MEDIUM
  else if 0 <? error_crc_sum then LOW
  else GOOD.

Definition all_sorted (interfaces : list InterfaceData)
  : list InterfaceData :=
  sorted_desc error_crc_ratio interfaces.

(* ================================================================= *)
(** ** Network-wide statistics *)

Record network_statistics : Type := {
  total_input_packets : Z;
  total_output_packets : Z;
  total_input_errors : Z;
  total_crc_errors : Z;
  total_output_errors : Z;
  total_input_drops : Z;
  total_output_drops : Z;
  (** the division is outside any [try]: its exception, if any, is the
      outcome of the function *)
  overall_error_crc_ratio : result pynum
}.

Definition network_wide (interfaces : list InterfaceData)
  : network_statistics :=
  let tip := py_sum (map input_packets interfaces) in
  let top := py_sum (map output_packets interfaces) in
  let tie := py_sum (map input_errors interfaces) in
  let tcrc := py_sum (map crc_errors interfaces) in
  let toe := py_sum (map output_errors interfaces) in
  let tid := py_sum (map input_drops interfaces) in
  let tod := py_sum (map output_drops interfaces) in
  {| total_input_packets := tip;
     total_output_packets := top;
     total_input_errors := tie;
     total_crc_errors := tcrc;
     total_output_errors := toe;
     total_input_drops := tid;
     total_output_drops := tod;
     overall_error_crc_ratio := ratio_pct (tie + tcrc) tip |}.

Record complete_report : Type := {
  rows : list (InterfaceData * Severity);
  statistics : network_statistics
}.

(** [print_complete_analysis]: nothing after the early [return] on an empty
    list, otherwise the table and the statistics. *)
Definition print_complete_analysis (interfaces : list InterfaceData)
  : option complete_report :=
  match interfaces with
  | [] => None
  | _ =>
      Some {| rows := map (fun i => (i, classification_of i))
                          (all_sorted interfaces);
              statistics := network_wide interfaces |}
  end.

Definition complete_rows (interfaces : list InterfaceData)
  : list (InterfaceData * Severity) :=
  match print_complete_analysis interfaces with
  | Some r => rows r
  | None => []
  end.

(* ================================================================= *)
(** ** The summary line and the entry point *)

(** [len(l)] *)
Definition py_len {A : Type} (l : list A) : Z := Z.of_nat (List.length l).

(** [(total_with_issues/total_analyzed*100)], the percentage printed in the
    summary of the top-10 report. *)
Definition issues_percentage (interfaces : list InterfaceData)
  : result spec_float :=
  q <- py_truediv (py_len (problem_interfaces interfaces))
                  (py_len interfaces) ;;
  Ok (py_fmul q f100).

(** What a run prints, block by block.  The banners and the detailed
    breakdowns that repeat the fields of the rows are left out. *)
Inductive event : Type :=
  | Parsing (filename : string)
  | Printed (m : message)
  | ParsedCount (n : Z)
  | NoQualifying
  | Summary (total_analyzed total_with_issues : Z)
  | Percentage (p : spec_float)
  | Top10Table (table : list top_row)
  | NoOutputErrors
  | Top5Table (table : list top_row)
  | CompleteTable (table : list (InterfaceData * Severity))
  | Statistics (s : network_statistics) (overall : pynum)
  | NoData
  | AnalysisComplete.

(** The blocks printed so far, and the exception that ended the run, if
    one did. *)
Definition transcript : Type := (list event * option exn)%type.

(** One statement after another: the second runs unless the first
    raised. *)
Definition and_then (t1 t2 : transcript) : transcript :=
  match t1 with
  | (ev1, Some e) => (ev1, Some e)
  | (ev1, None) => (ev1 ++ fst t2, snd t2)%list
  end.

(** [print_top_10_analysis], with its summary. *)
Definition top_10_transcript (interfaces : list InterfaceData)
  : transcript :=
  match interfaces with
  | [] => ([NoQualifying], None)
  | _ =>
      let counts :=
        Summary (py_len interfaces)
                (py_len (problem_interfaces interfaces)) in
      match issues_percentage interfaces with
      | Raise e => ([counts], Some e)
      | Ok p =>
          ([counts; Percentage p;
            Top10Table (print_top_10_analysis interfaces)], None)
      end
  end.

(** [print_top_5_output_errors] *)
Definition top_5_transcript (interfaces : list InterfaceData)
  : transcript :=
  match output_error_interfaces interfaces with
  | [] => ([NoOutputErrors], None)
  | _ => ([Top5Table (print_top_5_output_errors interfaces)], None)
  end.

(** [print_complete_analysis]: the table comes out before the overall
    ratio is computed. *)
Definition complete_transcript (interfaces : list InterfaceData)
  : transcript :=
  match print_complete_analysis interfaces with
  | None => ([], None)
  | Some r =>
      match overall_error_crc_ratio (statistics r) with
      | Raise e => ([CompleteTable (rows r)], Some e)
      | Ok overall =>
          ([CompleteTable (rows r); Statistics (statistics r) overall], None)
      end
  end.

Definition default_filename : string :=
  "/home/ec2-user/int_error/int_error.txt".

(** [main()]: [argv] is [sys.argv], and [open_file] tells what opening a
    file of a given name and reading its lines gives. *)
Definition main (argv : list string)
    (open_file : string -> result (list string)) : transcript :=
  let filename :=
    match argv with
    | _ :: arg :: _ => arg
    | _ => default_filename
    end in
  let parsed := parse_interface_data filename (open_file filename) in
  let interfaces := snd parsed in
  and_then (Parsing filename :: map Printed (fst parsed), None)
    (and_then
       (match interfaces with
        | [] => ([NoData], None)
        | _ =>
            and_then ([ParsedCount (py_len interfaces)], None)
              (and_then (top_10_transcript interfaces)
                 (and_then (top_5_transcript interfaces)
                    (complete_transcript interfaces)))
        end)
       ([AnalysisComplete], None)).

(* ================================================================= *)
(** ** Notions used to state the properties *)

(** The two [continue] tests of the metrics engine, as one boolean. *)
Definition passes_filters (data : Raw.stats) : bool :=
  negb (Raw.input_packets data + Raw.output_packets data =? 0) &&
  negb (Z.max (Raw.input_rate data) (Raw.output_rate data) <? 100000).


(** An output record carries the counters of a raw record. *)
Definition corresponds (i : InterfaceData) (data : Raw.stats) : Prop :=
  name i = Raw.name data /\
  input_packets i = Raw.input_packets data /\
  output_packets i = Raw.output_packets data /\
  input_rate i = Raw.input_rate data /\
  output_rate i = Raw.output_rate data /\
  input_errors i = Raw.input_errors data /\
  crc_errors i = Raw.crc_errors data /\
  frame_errors i = Raw.frame_errors data /\
  overrun_errors i = Raw.overrun_errors data /\
  ignored_errors i = Raw.ignored_errors data /\
  abort_errors i = Raw.abort_errors data /\
  output_errors i = Raw.output_errors data /\
  underruns i = Raw.underruns data /\
  input_drops i = Raw.input_drops data /\
  output_drops i = Raw.output_drops data.

(** Every counter of a raw record is a natural number. *)
Definition raw_nonneg (d : Raw.stats) : Prop :=
  0 <= Raw.input_packets d /\ 0 <= Raw.output_packets d /\
  0 <= Raw.input_rate d /\ 0 <= Raw.output_rate d /\
  0 <= Raw.input_errors d /\ 0 <= Raw.crc_errors d /\
  0 <= Raw.frame_errors d /\ 0 <= Raw.overrun_errors d /\
  0 <= Raw.ignored_errors d /\ 0 <= Raw.abort_errors d /\
  0 <= Raw.output_errors d /\ 0 <= Raw.underruns d /\
  0 <= Raw.input_drops d /\ 0 <= Raw.output_drops d.

(** An entry of [interface_stats] is filed under its own name and holds
    natural numbers. *)
Definition entry_ok (kv : string * Raw.stats) : Prop :=
  Raw.name (snd kv) = fst kv /\ raw_nonneg (snd kv).

(** Two scan states that agree on the cursor and on the record of [nm]. *)
Definition agree_on (nm : string) (s1 s2 : scan_state) : Prop :=
  current_interface s1 = current_interface s2 /\
  dict_get nm (interface_stats s1) = dict_get nm (interface_stats s2) /\
  (forall c, current_interface s1 = Some c ->
             dict_mem c (interface_stats s1) = true /\
             dict_mem c (interface_stats s2) = true).

(** The three error counters that are divided stay below [bound]. *)
Definition errors_below (bound : Z) (data : Raw.stats) : Prop :=
  Raw.input_errors data < bound /\ Raw.crc_errors data < bound /\
  Raw.output_errors data < bound.

(** Every counter of a raw record stays below [bound]. *)
Definition raw_below (bound : Z) (d : Raw.stats) : Prop :=
  Raw.input_packets d < bound /\ Raw.output_packets d < bound /\
  Raw.input_rate d < bound /\ Raw.output_rate d < bound /\
  Raw.input_errors d < bound /\ Raw.crc_errors d < bound /\
  Raw.frame_errors d < bound /\ Raw.overrun_errors d < bound /\
  Raw.ignored_errors d < bound /\ Raw.abort_errors d < bound /\
  Raw.output_errors d < bound /\ Raw.underruns d < bound /\
  Raw.input_drops d < bound /\ Raw.output_drops d < bound.

(** [r] is zero or above, and not a NaN. *)
Definition nonnegative (r : pynum) : Prop :=
  is_nan r = false /\ py_lt r PyInt0 = false.

(** The tiers from the mildest to the most severe. *)
Definition severity_rank (s : Severity) : nat :=
  match s with
  | GOOD => 0
  | LOW => 1
  | MEDIUM => 2
  | HIGH => 3
  | CRITICAL => 4
  end.


(** Every character of [s] satisfies [p]. *)
Fixpoint all_chars (p : ascii -> bool) (s : string) : bool :=
  match s with
  | EmptyString => true
  | String c s' => p c && all_chars p s'
  end.

(** [r] is the value of [(num / den) * 100 if den > 0 else 0]. *)
Definition is_ratio_of (r : pynum) (num den : Z) : Prop :=
  (0 < den ->
   exists q, py_truediv num den = Ok q /\ r = PyFloat (py_fmul q f100)) /\
  (den = 0 -> r = PyInt0).

(** The sum of a list of integers, by recursion on the list. *)
Fixpoint total (l : list Z) : Z :=
  match l with
  | [] => 0
  | x :: l' => x + total l'
  end.

(** Descending order of a key, between neighbours. *)
Definition descending {A : Type} (key : A -> pynum) (l : list A) : Prop :=
  Sorted (fun a b => py_ge (key a) (key b) = true) l.

(** The elements whose key equals [k], in the order they have in [l]. *)
Definition tied_with {A : Type} (key : A -> pynum) (k : pynum) (l : list A)
  : list A :=
  filter (fun a => py_eq (key a) k) l.

(** No ratio of the record is a NaN. *)
Definition ratios_ordered (i : InterfaceData) : Prop :=
  is_nan (error_crc_ratio i) = false /\
  is_nan (error_ratio i) = false /\
  is_nan (crc_ratio i) = false /\
  is_nan (output_error_ratio i) = false.

(** The names of the header lines of a text, in order of appearance. *)
Definition header_names (lines : list string) : list string :=
  flat_map (fun l => match interface_match (strip l) with
                     | Some nm => [nm]
                     | None => []
                     end) lines.

(** The distinct elements of a list, each at its first occurrence. *)
Fixpoint first_occurrences_from (seen l : list string) : list string :=
  match l with
  | [] => []
  | x :: l' =>
      if existsb (String.eqb x) seen then first_occurrences_from seen l'
      else x :: first_occurrences_from (x :: seen) l'
  end.

Definition first_occurrences (l : list string) : list string :=
  first_occurrences_from [] l.

(** A line that is neither a header nor one of the six field lines. *)
Definition unrecognized (raw_line : string) : Prop :=
  interface_match (strip raw_line) = None /\
  field_update (strip raw_line) = None.

(** [view] is what keeping the records whose [key] is above zero, sorting
    them by descending [key] with ties in input order, and cutting after
    [n] records gives. *)
Definition is_top_view (key : InterfaceData -> pynum) (n : nat)
    (interfaces view : list InterfaceData) : Prop :=
  exists ranked,
    (forall i, In i ranked -> In i interfaces /\ py_gt (key i) PyInt0 = true)
    /\ Permutation ranked (filter (fun i => py_gt (key i) PyInt0) interfaces)
    /\ descending key ranked
    /\ (forall k, tied_with key k ranked =
                  tied_with key k
                    (filter (fun i => py_gt (key i) PyInt0) interfaces))
    /\ view = firstn n ranked
    /\ (forall a b, In a view -> In b (skipn n ranked) ->
                    py_ge (key a) (key b) = true).

(** The name [k] has a record in [d] that passes the engine's filters. *)
Definition kept_name (d : dict) (k : string) : bool :=
  match dict_get k d with
  | Some data => passes_filters data
  | None => false
  end.

(* ================================================================= *)
(** ** Sample inputs *)

Definition eol : string := String (ascii_of_nat 10) EmptyString.

(** One busy interface with 800 errors in a million packets. *)
Definition sample_text : list string :=
  [ "GigabitEthernet0/1 is up, line protocol is up" ++ eol;
    "  Hardware is GigabitEthernet, address is 0000.0000.0001" ++ eol;
    "  5 minute input rate 1200000000 bits/sec, 150000 packets/sec" ++ eol;
    "  5 minute output rate 1000 bits/sec, 50000 packets/sec" ++ eol;
    "     1000000 packets input, 64000000 bytes, 5 total input drops" ++ eol;
    "     500 input errors, 300 CRC, 0 frame, 0 overrun, 0 ignored, 0 abort"
      ++ eol;
    "     2000 packets output, 128000 bytes, 7 total output drops" ++ eol;
    "     3 output errors, 2 underruns, 0 applique" ++ eol ].

(** One error in a thousand packets: a ratio of exactly [0.1]. *)
Definition boundary_text : list string :=
  [ "TenGigE0/0/0/1 is up, line protocol is up" ++ eol;
    "  5 minute input rate 1000 bits/sec, 200000 packets/sec" ++ eol;
    "     1000 packets input, 64000 bytes, 0 total input drops" ++ eol;
    "     1 input errors, 0 CRC, 0 frame, 0 overrun, 0 ignored, 0 abort"
      ++ eol ].

Fixpoint zeros (n : nat) : string :=
  match n with
  | O => EmptyString
  | S n' => String "0" (zeros n')
  end.

(** A healthy interface followed by one whose error counter, [10^309] over
    a single packet, gives a quotient beyond the range of a float. *)
Definition overflow_text : list string :=
  [ "Gi0/1 is up" ++ eol;
    "  5 minute input rate 0 bits/sec, 150000 packets/sec" ++ eol;
    "     1000 packets input, 64000 bytes, 0 total input drops" ++ eol;
    "Gi0/2 is up" ++ eol;
    "  5 minute input rate 0 bits/sec, 150000 packets/sec" ++ eol;
    "     1 packets input, 64 bytes, 0 total input drops" ++ eol;
    "     1" ++ zeros 309 ++
      " input errors, 0 CRC, 0 frame, 0 overrun, 0 ignored, 0 abort" ++ eol ].

(** The header of [Gi0/1] comes twice, with another interface in between. *)
Definition repeated_text : list string :=
  [ "Gi0/1 is up" ++ eol;
    "  5 minute input rate 0 bits/sec, 150000 packets/sec" ++ eol;
    "     100 packets input, 6400 bytes, 5 total input drops" ++ eol;
    "     4 input errors, 3 CRC, 0 frame, 0 overrun, 0 ignored, 0 abort"
      ++ eol;
    "Gi0/2 is up" ++ eol;
    "  5 minute output rate 0 bits/sec, 250000 packets/sec" ++ eol;
    "     9 packets output, 64 bytes, 0 total output drops" ++ eol;
    "Gi0/1 is down" ++ eol;
    "  5 minute input rate 0 bits/sec, 300000 packets/sec" ++ eol;
    "     7 packets input, 448 bytes, 1 total input drops" ++ eol;
    "  some line the patterns do not know" ++ eol ].

(** Three busy interfaces; the first and the last have the same ratio. *)
Definition tie_text : list string :=
  [ "Gi0/1 is up" ++ eol;
    "  5 minute input rate 0 bits/sec, 150000 packets/sec" ++ eol;
    "     1000000 packets input, 64000000 bytes, 0 total input drops" ++ eol;
    "     500 input errors, 300 CRC, 0 frame, 0 overrun, 0 ignored, 0 abort"
      ++ eol;
    "Gi0/2 is up" ++ eol;
    "  5 minute input rate 0 bits/sec, 150000 packets/sec" ++ eol;
    "     1000 packets input, 64000 bytes, 0 total input drops" ++ eol;
    "     1 input errors, 0 CRC, 0 frame, 0 overrun, 0 ignored, 0 abort"
      ++ eol;
    "Gi0/3 is up" ++ eol;
    "  5 minute input rate 0 bits/sec, 150000 packets/sec" ++ eol;
    "     10000 packets input, 640000 bytes, 0 total input drops" ++ eol;
    "     8 input errors, 0 CRC, 0 frame, 0 overrun, 0 ignored, 0 abort"
      ++ eol ].

(** The interface of [sample_text] with both rates at 50000. *)
Definition low_rate_text : list string :=
  [ "GigabitEthernet0/1 is up, line protocol is up" ++ eol;
    "  5 minute input rate 400000000 bits/sec, 50000 packets/sec" ++ eol;
    "  5 minute output rate 400000000 bits/sec, 50000 packets/sec" ++ eol;
    "     1000000 packets input, 64000000 bytes, 5 total input drops" ++ eol;
    "     500 input errors, 300 CRC, 0 frame, 0 overrun, 0 ignored, 0 abort"
      ++ eol ].

(** An interface that sends only, with [10^309] input errors, and one that
    received a single packet: each ratio is computed, the overall one is
    not. *)
Definition lopsided_text : list string :=
  [ "Gi0/1 is up" ++ eol;
    "  5 minute output rate 0 bits/sec, 150000 packets/sec" ++ eol;
    "     5 packets output, 320 bytes, 0 total output drops" ++ eol;
    "     1" ++ zeros 309 ++
      " input errors, 0 CRC, 0 frame, 0 overrun, 0 ignored, 0 abort" ++ eol;
    "Gi0/2 is up" ++ eol;
    "  5 minute input rate 0 bits/sec, 150000 packets/sec" ++ eol;
    "     1 packets input, 64 bytes, 0 total input drops" ++ eol ].


Definition sample_record : InterfaceData :=
  {| name := "GigabitEthernet0/1";
     input_packets := 1000000; output_packets := 2000;
     total_packets := 1002000;
     input_rate := 150000; output_rate := 50000;
     input_errors := 500; crc_errors := 300; frame_errors := 0;
     overrun_errors := 0; ignored_errors := 0; abort_errors := 0;
     output_errors := 3; underruns := 2;
     input_drops := 5; output_drops := 7;
     error_crc_ratio := PyFloat (S754_finite false 5764607523034235 (-56));
     error_ratio := PyFloat (S754_finite false 7205759403792794 (-57));
     crc_ratio := PyFloat (S754_finite false 8646911284551352 (-58));
     output_error_ratio :=
       PyFloat (S754_finite false 5404319552844595 (-55)) |}.

Definition boundary_record : InterfaceData :=
  {| name := "TenGigE0/0/0/1";
     input_packets := 1000; output_packets := 0; total_packets := 1000;
     input_rate := 200000; output_rate := 0;
     input_errors := 1; crc_errors := 0; frame_errors := 0;
     overrun_errors := 0; ignored_errors := 0; abort_errors := 0;
     output_errors := 0; underruns := 0;
     input_drops := 0; output_drops := 0;
     error_crc_ratio := PyFloat f0_1;
     error_ratio := PyFloat f0_1;
     crc_ratio := PyFloat (S754_zero false);
     output_error_ratio := PyInt0 |}.

(** Non-NaN floats are ordered as their sign class, exponent and mantissa
    are, lexicographically; the proofs about [<] go through this key. *)
Definition float_key (f : spec_float) : Z * Z * Z :=
  match f with
  | S754_zero _ => (0, 0, 0)
  | S754_nan => (0, 0, 0)
  | S754_infinity false => (2, 0, 0)
  | S754_infinity true => (-2, 0, 0)
  | S754_finite false m e => (1, e, Zpos m)
  | S754_finite true m e => (-1, - e, Zneg m)
  end.

Definition lex3 (a b : Z * Z * Z) : comparison :=
  let '(a1, a2, a3) := a in
  let '(b1, b2, b3) := b in
  match a1 ?= b1 with
  | Eq => match a2 ?= b2 with
          | Eq => a3 ?= b3
          | c => c
          end
  | c => c
  end.

Definition not_nan (f : spec_float) : Prop :=
  match f with S754_nan => False | _ => True end.

(* ================================================================= *)
(** * Properties *)

(** ** The order on ratio values *)

Lemma SFcompare_lex3 (x y : spec_float) :
  not_nan x -> not_nan y ->
  SFcompare x y = Some (lex3 (float_key x) (float_key y)).
Proof.
  destruct x as [sx|sx| |sx mx ex], y as [sy|sy| |sy my ey];
    simpl; try contradiction; intros _ _;
    try (destruct sx); try (destruct sy); try reflexivity.
  unfold lex3; cbn.
  rewrite Z.compare_opp, (Z.compare_antisym ex ey).
  destruct (ex ?= ey); reflexivity.
Qed.

Ltac lex3_cases :=
  repeat match goal with
         | |- context [?a ?= ?b] => destruct (Z.compare_spec a b)
         | H : context [?a ?= ?b] |- _ => destruct (Z.compare_spec a b)
         end.

Lemma lex3_antisym (a b : Z * Z * Z) : lex3 b a = CompOpp (lex3 a b).
Proof.
  destruct a as [[a1 a2] a3], b as [[b1 b2] b3]; unfold lex3.
  lex3_cases; simpl; try reflexivity; lia.
Qed.

Lemma lex3_trans (a b c : Z * Z * Z) :
  lex3 a b <> Lt -> lex3 b c <> Lt -> lex3 a c <> Lt.
Proof.
  destruct a as [[a1 a2] a3], b as [[b1 b2] b3], c as [[c1 c2] c3].
  unfold lex3. intros H1 H2.
  lex3_cases; try congruence; try lia.
Qed.

Lemma lex3_eq (a b c : Z * Z * Z) :
  lex3 a c = Eq -> lex3 b c = Eq -> lex3 a b = Eq.
Proof.
  destruct a as [[a1 a2] a3], b as [[b1 b2] b3], c as [[c1 c2] c3].
  unfold lex3. intros H1 H2.
  lex3_cases; try congruence; try lia.
Qed.

Lemma is_nan_not_nan (x : pynum) : is_nan x = false -> not_nan (as_float x).
Proof. unfold is_nan. destruct (as_float x); simpl; congruence || trivial. Qed.

Lemma py_lt_ge (x y : pynum) : py_lt x y = true -> py_ge y x = true.
Proof.
  unfold py_lt, py_ge, SFltb, SFleb.
  destruct (SFcompare (as_float x) (as_float y)) as [[ | | ]|]; congruence.
Qed.

Lemma py_not_lt_ge (x y : pynum) :
  is_nan x = false -> is_nan y = false ->
  py_lt x y = false -> py_ge x y = true.
Proof.
  intros Hx Hy. apply is_nan_not_nan in Hx, Hy.
  unfold py_lt, py_ge, SFltb, SFleb.
  rewrite (SFcompare_lex3 _ _ Hx Hy), (SFcompare_lex3 _ _ Hy Hx).
  rewrite (lex3_antisym (float_key (as_float x))).
  destruct (lex3 (float_key (as_float x)) (float_key (as_float y)));
    simpl; congruence.
Qed.

Lemma py_ge_trans (x y z : pynum) :
  is_nan x = false -> is_nan y = false -> is_nan z = false ->
  py_ge x y = true -> py_ge y z = true -> py_ge x z = true.
Proof.
  intros Hx Hy Hz. apply is_nan_not_nan in Hx, Hy, Hz.
  unfold py_ge, SFleb.
  rewrite (SFcompare_lex3 _ _ Hy Hx), (SFcompare_lex3 _ _ Hz Hy),
    (SFcompare_lex3 _ _ Hz Hx).
  rewrite (lex3_antisym (float_key (as_float x)) (float_key (as_float y))),
    (lex3_antisym (float_key (as_float y)) (float_key (as_float z))),
    (lex3_antisym (float_key (as_float x)) (float_key (as_float z))).
  pose proof (lex3_trans (float_key (as_float x)) (float_key (as_float y))
                (float_key (as_float z))) as T.
  destruct (lex3 (float_key (as_float x)) (float_key (as_float y)));
    destruct (lex3 (float_key (as_float y)) (float_key (as_float z)));
    destruct (lex3 (float_key (as_float x)) (float_key (as_float z)));
    simpl; intros; try congruence; exfalso; apply T; congruence.
Qed.

Lemma py_eq_not_nan (x k : pynum) :
  py_eq x k = true -> is_nan x = false /\ is_nan k = false.
Proof.
  unfold py_eq, SFeqb, is_nan.
  destruct (as_float x), (as_float k); simpl; try congruence; auto.
Qed.

Lemma py_eq_tied (x y k : pynum) :
  py_eq x k = true -> py_eq y k = true -> py_lt x y = false.
Proof.
  intros Hx Hy.
  destruct (py_eq_not_nan _ _ Hx) as [Nx Nk].
  destruct (py_eq_not_nan _ _ Hy) as [Ny _].
  apply is_nan_not_nan in Nx, Ny, Nk.
  revert Hx Hy. unfold py_eq, py_lt, SFeqb, SFltb.
  rewrite (SFcompare_lex3 _ _ Nx Nk), (SFcompare_lex3 _ _ Ny Nk),
    (SFcompare_lex3 _ _ Nx Ny).
  pose proof (lex3_eq (float_key (as_float x)) (float_key (as_float y))
                (float_key (as_float k))) as E.
  destruct (lex3 (float_key (as_float x)) (float_key (as_float k)));
    try congruence.
  destruct (lex3 (float_key (as_float y)) (float_key (as_float k)));
    try congruence.
  rewrite E; reflexivity.
Qed.

(** ** Rounding never produces a NaN *)

Lemma shr_1_nonneg (mrs : shr_record) :
  0 <= shr_m mrs -> 0 <= shr_m (shr_1 mrs).
Proof.
  destruct mrs as [m r s]; simpl.
  destruct m as [|[p|p|]|[p|p|]]; simpl; lia.
Qed.

Lemma iter_shr_1_nonneg (n : positive) (mrs : shr_record) :
  0 <= shr_m mrs -> 0 <= shr_m (iter_pos shr_1 n mrs).
Proof.
  revert mrs; induction n as [n IH|n IH|]; intros mrs H; simpl.
  - apply IH, IH, shr_1_nonneg, H.
  - apply IH, IH, H.
  - apply shr_1_nonneg, H.
Qed.

Lemma shr_fexp_nonneg (m e : Z) (l : location) :
  0 <= m -> 0 <= shr_m (fst (shr_fexp prec emax m e l)).
Proof.
  intros H. unfold shr_fexp, shr.
  assert (H0 : 0 <= shr_m (shr_record_of_loc m l))
    by (destruct l as [|[ | | ]]; exact H).
  destruct (fexp prec emax (Zdigits2 m + e) - e); simpl; auto.
  apply iter_shr_1_nonneg, H0.
Qed.

Lemma round_nearest_even_nonneg (m : Z) (l : location) :
  0 <= m -> 0 <= round_nearest_even m l.
Proof.
  intros H. destruct l as [|[ | | ]]; simpl; try lia.
  destruct (Z.even m); lia.
Qed.

Lemma binary_round_aux_not_nan (s : bool) (m e : Z) (l : location) :
  0 <= m -> not_nan (binary_round_aux prec emax s m e l).
Proof.
  intros H. unfold binary_round_aux.
  pose proof (shr_fexp_nonneg m e l H) as H1.
  destruct (shr_fexp prec emax m e l) as [mrs' e']. simpl in H1.
  pose proof (shr_fexp_nonneg _ e' loc_Exact
                (round_nearest_even_nonneg _ (loc_of_shr_record mrs') H1))
    as H2.
  destruct (shr_fexp prec emax _ e' loc_Exact) as [mrs'' e'']. simpl in H2.
  destruct (shr_m mrs'') as [|p|p]; simpl; auto; try lia.
  destruct (_ <=? _); exact I.
Qed.

Lemma SFdiv_Z2SF_not_nan (a b : Z) :
  b <> 0 -> not_nan (SFdiv prec emax (Z2SF a) (Z2SF b)).
Proof.
  intros Hb. destruct a as [|p|p], b as [|q|q]; try congruence;
    try exact I; unfold Z2SF, SFdiv.
  all: destruct (SFdiv_core_binary prec emax (Z.pos p) 0 (Z.pos q) 0)
         as [[mz ez] lz] eqn:E.
  all: apply binary_round_aux_not_nan.
  all: unfold SFdiv_core_binary in E.
  all: match type of E with
       | context [Z.div_eucl ?x ?y] =>
           pose proof (Z.div_eucl_eq x y ltac:(lia)) as Q;
           pose proof (Z.mod_pos_bound x y ltac:(lia)) as R;
           unfold Z.modulo in R;
           assert (Hx : 0 <= x);
           [ | destruct (Z.div_eucl x y) as [q0 r0]; inversion E; subst; nia ]
       end.
  all: match goal with
       | |- 0 <= match ?s with _ => _ end =>
           destruct s; try lia; apply Z.shiftl_nonneg; lia
       end.
Qed.

Lemma py_fmul_not_nan (q : spec_float) :
  not_nan q -> not_nan (py_fmul q f100).
Proof.
  intros Hq. unfold py_fmul, f100, SFmul.
  destruct q as [s|s| |s m e]; try exact I; try contradiction.
  apply binary_round_aux_not_nan. lia.
Qed.

Lemma py_truediv_not_nan (a b : Z) (q : spec_float) :
  py_truediv a b = Ok q -> not_nan q.
Proof.
  unfold py_truediv. destruct (Z.eqb_spec b 0) as [|Hb]; [discriminate|].
  pose proof (SFdiv_Z2SF_not_nan a b Hb) as N.
  destruct (SFdiv prec emax (Z2SF a) (Z2SF b)); intros [= <-]; exact N.
Qed.

Lemma ratio_pct_not_nan (num den : Z) (r : pynum) :
  ratio_pct num den = Ok r -> is_nan r = false.
Proof.
  unfold ratio_pct. destruct (0 <? den).
  - destruct (py_truediv num den) as [q|e] eqn:E; unfold bind;
      intros [= <-].
    pose proof (py_fmul_not_nan q (py_truediv_not_nan _ _ _ E)) as M.
    unfold is_nan, as_float. destruct (py_fmul q f100); simpl in M; tauto.
  - intros [= <-]. reflexivity.
Qed.

(** ** The stable descending sort *)

Section SortedFacts.
Context {A : Type} (key : A -> pynum).

Let ge (a b : A) : Prop := py_ge (key a) (key b) = true.
Let ordered (a : A) : Prop := is_nan (key a) = false.

Lemma insert_desc_perm (x : A) (l : list A) :
  Permutation (x :: l) (insert_desc key x l).
Proof.
  induction l as [|y l IH]; simpl; [reflexivity|].
  destruct (py_lt (key x) (key y)); [|reflexivity].
  rewrite perm_swap. now apply perm_skip.
Qed.

Lemma sorted_desc_perm (l : list A) : Permutation l (sorted_desc key l).
Proof.
  induction l as [|x l IH]; simpl; [constructor|].
  rewrite <- insert_desc_perm. now apply perm_skip.
Qed.

Lemma insert_desc_strongly (x : A) (l : list A) :
  ordered x -> Forall ordered l ->
  StronglySorted ge l -> StronglySorted ge (insert_desc key x l).
Proof.
  intros Hx. induction l as [|y l IH]; intros Hl Hs; simpl.
  - repeat constructor.
  - inversion Hl as [|? ? Hy Hl']; subst.
    inversion Hs as [|? ? Hs' Hall]; subst.
    destruct (py_lt (key x) (key y)) eqn:E.
    + constructor; [now apply IH|].
      apply (Permutation_Forall (insert_desc_perm x l)).
      constructor; [|exact Hall].
      now apply py_lt_ge.
    + assert (Hxy : ge x y) by now apply py_not_lt_ge.
      constructor; [exact Hs|].
      constructor; [exact Hxy|].
      rewrite Forall_forall in *. intros z Hz.
      apply (py_ge_trans _ (key y)); auto.
      * apply Hl', Hz.
      * apply Hall, Hz.
Qed.

Lemma sorted_desc_strongly (l : list A) :
  Forall ordered l -> StronglySorted ge (sorted_desc key l).
Proof.
  induction l as [|x l IH]; intros H; simpl; [constructor|].
  inversion H; subst.
  apply insert_desc_strongly; auto.
  apply (Permutation_Forall (sorted_desc_perm l)); assumption.
Qed.

Lemma sorted_desc_descending (l : list A) :
  Forall ordered l -> descending key (sorted_desc key l).
Proof.
  intros H. apply StronglySorted_Sorted, sorted_desc_strongly, H.
Qed.

Lemma insert_desc_tied (k : pynum) (x : A) (l : list A) :
  tied_with key k (insert_desc key x l) = tied_with key k (x :: l).
Proof.
  induction l as [|y l IH]; [reflexivity|].
  simpl insert_desc. destruct (py_lt (key x) (key y)) eqn:E; [|reflexivity].
  unfold tied_with in *. simpl in *. rewrite IH.
  destruct (py_eq (key x) k) eqn:Ex, (py_eq (key y) k) eqn:Ey;
    try reflexivity.
  rewrite (py_eq_tied _ _ _ Ex Ey) in E. discriminate.
Qed.

Lemma sorted_desc_tied (k : pynum) (l : list A) :
  tied_with key k (sorted_desc key l) = tied_with key k l.
Proof.
  induction l as [|x l IH]; [reflexivity|].
  simpl sorted_desc. rewrite insert_desc_tied.
  unfold tied_with in *. simpl. now rewrite IH.
Qed.

(** Whatever is cut off by [firstn] ranks no higher than what is kept. *)
Lemma firstn_sorted_desc_top (n : nat) (l : list A) :
  Forall ordered l ->
  forall a b, In a (firstn n (sorted_desc key l)) ->
              In b (skipn n (sorted_desc key l)) -> ge a b.
Proof.
  intros H a b Ha Hb.
  pose proof (sorted_desc_strongly l H) as S.
  rewrite <- (firstn_skipn n (sorted_desc key l)) in S.
  revert S Ha Hb.
  generalize (firstn n (sorted_desc key l)) (skipn n (sorted_desc key l)).
  intros p q. induction p as [|c p IH]; intros S Ha Hb; [contradiction|].
  simpl in S. inversion S as [|? ? S' Hall]; subst.
  destruct Ha as [->|Ha]; [|now apply IH].
  rewrite Forall_forall in Hall. apply Hall, in_or_app. now right.
Qed.
End SortedFacts.

(** ** The metrics engine *)

Lemma ratio_pct_spec (num den : Z) (r : pynum) :
  ratio_pct num den = Ok r -> is_ratio_of r num den.
Proof.
  unfold ratio_pct, is_ratio_of. destruct (Z.ltb_spec 0 den) as [Hd|Hd].
  - destruct (py_truediv num den) as [q|e]; unfold bind; intros [= <-].
    split; [intros _; now exists q | lia].
  - intros [= <-]. split; [lia | reflexivity].
Qed.

Lemma ratio_pct_raise (num den : Z) (e : exn) :
  ratio_pct num den = Raise e -> e = OverflowError.
Proof.
  unfold ratio_pct, py_truediv. destruct (Z.ltb_spec 0 den) as [Hd|Hd];
    [|discriminate].
  destruct (Z.eqb_spec den 0); [lia|].
  destruct (SFdiv prec emax (Z2SF num) (Z2SF den)); unfold bind;
    congruence.
Qed.

(** Case analysis on the outcome of the four ratio computations. *)
Ltac ratio_cases :=
  repeat match goal with
         | |- context [bind (ratio_pct ?n ?d) _] =>
             let r := fresh "r" in
             let e := fresh "e" in
             let E := fresh "E" in
             destruct (ratio_pct n d) as [r|e] eqn:E; unfold bind at 1
         end.

Lemma process_entry_filtered (data : Raw.stats) :
  passes_filters data = false -> process_entry data = Ok None.
Proof.
  unfold passes_filters, process_entry.
  destruct (_ =? 0); [reflexivity|].
  destruct (_ <? 100000); [reflexivity|discriminate].
Qed.

Lemma process_entry_kept (data : Raw.stats) :
  passes_filters data = true ->
  (exists i, process_entry data = Ok (Some i)) \/
  process_entry data = Raise OverflowError.
Proof.
  unfold passes_filters, process_entry.
  destruct (_ =? 0); [discriminate|].
  destruct (_ <? 100000); [discriminate|]. intros _.
  ratio_cases; eauto;
    match goal with
    | H : ratio_pct _ _ = Raise _ |- _ =>
        rewrite (ratio_pct_raise _ _ _ H); now right
    end.
Qed.

Lemma process_entry_Some (data : Raw.stats) (i : InterfaceData) :
  process_entry data = Ok (Some i) ->
  passes_filters data = true /\
  corresponds i data /\
  total_packets i = Raw.input_packets data + Raw.output_packets data /\
  ratio_pct (input_errors i + crc_errors i) (input_packets i)
    = Ok (error_crc_ratio i) /\
  ratio_pct (input_errors i) (input_packets i) = Ok (error_ratio i) /\
  ratio_pct (crc_errors i) (input_packets i) = Ok (crc_ratio i) /\
  ratio_pct (output_errors i) (output_packets i)
    = Ok (output_error_ratio i).
Proof.
  unfold passes_filters, process_entry.
  destruct (_ =? 0); [discriminate|].
  destruct (_ <? 100000); [discriminate|].
  ratio_cases; try discriminate.
  intros [= <-]. simpl. unfold corresponds. simpl. tauto.
Qed.

Lemma process_entry_raise (data : Raw.stats) (e : exn) :
  process_entry data = Raise e -> e = OverflowError.
Proof.
  destruct (passes_filters data) eqn:F.
  - destruct (process_entry_kept data F) as [[i ->]| ->]; congruence.
  - rewrite (process_entry_filtered data F). discriminate.
Qed.

Lemma process_stats_raise (d : dict) (e : exn) :
  process_stats d = Raise e -> e = OverflowError.
Proof.
  induction d as [|[k data] d IH]; simpl; [discriminate|].
  destruct (process_entry data) as [o|e'] eqn:E; unfold bind at 1.
  - destruct (process_stats d) as [rest|e'']; unfold bind; [discriminate|].
    intros [= <-]. now apply IH.
  - intros [= <-]. now apply process_entry_raise in E.
Qed.

Lemma process_stats_In (d : dict) (out : list InterfaceData) :
  process_stats d = Ok out ->
  forall i, In i out <->
            exists data, In data (map snd d) /\
                         process_entry data = Ok (Some i).
Proof.
  revert out. induction d as [|[k data] d IH]; simpl; intros out.
  - intros [= <-] i. split; [contradiction|]. intros [? [[] _]].
  - destruct (process_entry data) as [o|e'] eqn:E; unfold bind at 1;
      [|discriminate].
    destruct (process_stats d) as [rest|e'']; unfold bind; [|discriminate].
    specialize (IH rest eq_refl). intros [= <-] i.
    destruct o as [j|]; simpl; rewrite IH; split.
    + intros [->|[x [Hx Ex]]]; [now exists data; auto | exists x; auto].
    + intros [x [[<-|Hx] Ex]]; [left; congruence | right; now exists x].
    + intros [x [Hx Ex]]; exists x; auto.
    + intros [x [[<-|Hx] Ex]]; [congruence | now exists x].
Qed.

Lemma process_stats_names (d : dict) (out : list InterfaceData) :
  process_stats d = Ok out ->
  map name out =
  map (fun kv => Raw.name (snd kv))
      (filter (fun kv => passes_filters (snd kv)) d).
Proof.
  revert out. induction d as [|[k data] d IH]; simpl; intros out.
  - now intros [= <-].
  - destruct (process_entry data) as [o|e'] eqn:E; unfold bind at 1;
      [|discriminate].
    destruct (process_stats d) as [rest|e'']; unfold bind; [|discriminate].
    specialize (IH rest eq_refl). intros [= <-].
    destruct o as [j|].
    + destruct (process_entry_Some _ _ E) as (F & C & _).
      rewrite F. simpl. rewrite IH. f_equal. apply C.
    + destruct (passes_filters data) eqn:F; [|exact IH].
      destruct (process_entry_kept data F) as [[i Ei]|Ei]; congruence.
Qed.

Lemma process_stats_ordered (d : dict) (out : list InterfaceData) :
  process_stats d = Ok out -> Forall ratios_ordered out.
Proof.
  intros H. apply Forall_forall. intros i Hi.
  apply (process_stats_In d out H) in Hi. destruct Hi as (data & _ & E).
  destruct (process_entry_Some _ _ E) as (_ & _ & _ & R1 & R2 & R3 & R4).
  repeat split; eapply ratio_pct_not_nan; eassumption.
Qed.

(** The list returned by [parse_interface_data] is the engine's, or empty. *)
Lemma parse_interface_data_cases (filename : string)
    (file : result (list string)) :
  (exists lines, file = Ok lines /\
     process_stats (interface_stats (scan_lines lines))
       = Ok (snd (parse_interface_data filename file)) /\
     fst (parse_interface_data filename file) = []) \/
  (snd (parse_interface_data filename file) = [] /\
   exists m, fst (parse_interface_data filename file) = [m]).
Proof.
  unfold parse_interface_data, try_body.
  destruct file as [lines|e]; unfold bind.
  - destruct (process_stats _) as [out|e] eqn:E.
    + left. exists lines. auto.
    + right. destruct e; simpl; eauto.
  - right. destruct e; simpl; eauto.
Qed.

Lemma parse_interface_data_ordered (filename : string)
    (file : result (list string)) :
  Forall ratios_ordered (snd (parse_interface_data filename file)).
Proof.
  destruct (parse_interface_data_cases filename file)
    as [(lines & _ & E & _)|[-> _]]; [|constructor].
  exact (process_stats_ordered _ _ E).
Qed.

(** ** The dictionary *)

Lemma dict_get_set_same (k : string) (v : Raw.stats) (d : dict) :
  dict_get k (dict_set k v d) = Some v.
Proof.
  induction d as [|[k' v'] d IH]; simpl.
  - now rewrite String.eqb_refl.
  - destruct (String.eqb k k') eqn:E; simpl.
    + now rewrite String.eqb_refl.
    + now rewrite E.
Qed.

Lemma dict_get_set_other (k k' : string) (v : Raw.stats) (d : dict) :
  k <> k' -> dict_get k' (dict_set k v d) = dict_get k' d.
Proof.
  intros N. induction d as [|[k0 v0] d IH]; simpl.
  - destruct (String.eqb_spec k' k); congruence.
  - destruct (String.eqb_spec k k0) as [->|]; simpl.
    + destruct (String.eqb_spec k' k0); congruence.
    + now rewrite IH.
Qed.

Lemma dict_get_update_same (k : string) (f : Raw.stats -> Raw.stats)
    (d : dict) :
  dict_get k (dict_update k f d) = option_map f (dict_get k d).
Proof.
  induction d as [|[k' v'] d IH]; simpl; [reflexivity|].
  destruct (String.eqb k k') eqn:E; simpl; now rewrite E.
Qed.

Lemma dict_get_update_other (k k' : string) (f : Raw.stats -> Raw.stats)
    (d : dict) :
  k <> k' -> dict_get k' (dict_update k f d) = dict_get k' d.
Proof.
  intros N. induction d as [|[k0 v0] d IH]; simpl; [reflexivity|].
  destruct (String.eqb_spec k k0) as [->|]; simpl.
  - destruct (String.eqb_spec k' k0); congruence.
  - now rewrite IH.
Qed.

Lemma dict_keys_update (k : string) (f : Raw.stats -> Raw.stats) (d : dict) :
  dict_keys (dict_update k f d) = dict_keys d.
Proof.
  unfold dict_keys. induction d as [|[k' v'] d IH]; simpl; [reflexivity|].
  destruct (String.eqb k k'); simpl; congruence.
Qed.

Lemma dict_mem_update (k k' : string) (f : Raw.stats -> Raw.stats)
    (d : dict) :
  dict_mem k' (dict_update k f d) = dict_mem k' d.
Proof.
  unfold dict_mem. destruct (String.eqb_spec k k') as [->|N].
  - rewrite dict_get_update_same. now destruct (dict_get k' d).
  - now rewrite dict_get_update_other.
Qed.

Lemma dict_keys_set (k : string) (v : Raw.stats) (d : dict) :
  dict_keys (dict_set k v d) =
  if dict_mem k d then dict_keys d else (dict_keys d ++ [k])%list.
Proof.
  unfold dict_keys, dict_mem.
  induction d as [|[k' v'] d IH]; simpl; [reflexivity|].
  destruct (String.eqb_spec k k') as [->|N]; simpl; [reflexivity|].
  rewrite IH. now destruct (dict_get k d).
Qed.

Lemma dict_mem_keys (k : string) (d : dict) :
  dict_mem k d = existsb (String.eqb k) (dict_keys d).
Proof.
  unfold dict_mem, dict_keys.
  induction d as [|[k' v'] d IH]; simpl; [reflexivity|].
  destruct (String.eqb k k'); simpl; [reflexivity|exact IH].
Qed.


Lemma dict_set_Forall (P : string * Raw.stats -> Prop) (k : string)
    (v : Raw.stats) (d : dict) :
  P (k, v) -> Forall P d -> Forall P (dict_set k v d).
Proof.
  intros Hv. induction d as [|[k' v'] d IH]; simpl; intros H.
  - now constructor.
  - inversion H; subst. destruct (String.eqb k k'); constructor; auto.
Qed.

Lemma dict_update_Forall (P : string * Raw.stats -> Prop) (k : string)
    (f : Raw.stats -> Raw.stats) (d : dict) :
  (forall k' v, P (k', v) -> P (k', f v)) ->
  Forall P d -> Forall P (dict_update k f d).
Proof.
  intros Hf. induction d as [|[k' v'] d IH]; simpl; intros H.
  - constructor.
  - inversion H; subst. destruct (String.eqb k k'); constructor; auto.
Qed.

(** ** What the patterns capture *)

Lemma digit_value_nonneg (c : ascii) : is_digit c = true -> 0 <= digit_value c.
Proof.
  unfold is_digit, digit_value. cbv zeta. intros H.
  apply andb_true_iff in H. destruct H as [H _].
  apply N.leb_le in H. generalize dependent (code c). intros n H. lia.
Qed.

Lemma int_acc_span_nonneg (s : string) (acc : Z) :
  0 <= acc -> 0 <= int_acc acc (fst (span is_digit s)).
Proof.
  revert acc. induction s as [|c s IH]; intros acc H; [exact H|].
  cbn [span]. destruct (is_digit c) eqn:D; [|exact H].
  destruct (span is_digit s) as [a b]. cbn [fst int_acc] in *.
  apply IH. pose proof (digit_value_nonneg c D). lia.
Qed.

Lemma match_at_nonneg (p : pattern) (s : string) (g : list Z) :
  match_at p s = Some g -> Forall (fun z => 0 <= z) g.
Proof.
  revert s g. induction p as [|[l| |] p IH]; intros s g; simpl.
  - intros [= <-]. constructor.
  - destruct (strip_prefix l s); [apply IH|discriminate].
  - pose proof (int_acc_span_nonneg s 0 (Z.le_refl 0)) as N.
    destruct (span is_digit s) as [ds s']. simpl in N.
    destruct (is_empty ds); [discriminate|].
    destruct (match_at p s') as [g'|] eqn:E; simpl; [|discriminate].
    intros [= <-]. constructor; [exact N|]. now apply (IH s').
  - induction s as [|c s IHs]; simpl.
    + destruct (match_at p "") eqn:E; [|discriminate].
      intros [= <-]. now apply (IH "").
    + destruct (match_at p (String c s)) eqn:E.
      * intros [= <-]. now apply (IH (String c s)).
      * destruct (is_newline c); [discriminate|exact IHs].
Qed.

Lemma re_search_nonneg (p : pattern) (s : string) (g : list Z) :
  re_search p s = Some g -> Forall (fun z => 0 <= z) g.
Proof.
  induction s as [|c s IH]; simpl.
  - destruct (match_at p "") eqn:E; [|discriminate].
    intros [= <-]. now apply (match_at_nonneg p "").
  - destruct (match_at p (String c s)) eqn:E; [|exact IH].
    intros [= <-]. now apply (match_at_nonneg p (String c s)).
Qed.

Lemma group_nonneg (m : list Z) (k : nat) :
  Forall (fun z => 0 <= z) m -> 0 <= group m k.
Proof.
  intros H. unfold group. destruct (nth_in_or_default (pred k) m 0) as [I | ->].
  - rewrite Forall_forall in H. now apply H.
  - reflexivity.
Qed.

Lemma field_update_ok (line : string) (f : Raw.stats -> Raw.stats) :
  field_update line = Some f ->
  forall d, (raw_nonneg d -> raw_nonneg (f d)) /\ Raw.name (f d) = Raw.name d.
Proof.
  unfold field_update.
  repeat match goal with
         | |- context [re_search ?p line] =>
             let m := fresh "m" in
             let E := fresh "E" in
             destruct (re_search p line) as [m|] eqn:E;
             [apply re_search_nonneg in E|]
         end; try discriminate.
  all: intros [= <-] [nm ip op ir or ie crc fr ov ig ab oe un idr odr].
  all: unfold raw_nonneg; simpl; split; [|reflexivity].
  all: match goal with
       | H : Forall _ ?m |- _ =>
           pose proof (group_nonneg m 1 H); pose proof (group_nonneg m 2 H);
           pose proof (group_nonneg m 3 H); pose proof (group_nonneg m 4 H);
           pose proof (group_nonneg m 5 H); pose proof (group_nonneg m 6 H)
       end; tauto.
Qed.

(** ** Invariants of the scan *)

Lemma scan_line_entries_ok (st : scan_state) (raw_line : string) :
  Forall entry_ok (interface_stats st) ->
  Forall entry_ok (interface_stats (scan_line st raw_line)).
Proof.
  intros H. unfold scan_line.
  destruct (interface_match (strip raw_line)) as [nm|]; simpl.
  - apply dict_set_Forall; [|exact H].
    unfold entry_ok, raw_nonneg; simpl.
    repeat split; apply Z.le_refl.
  - destruct (current_interface st) as [cur|]; [|exact H].
    destruct (negb (is_empty cur) && dict_mem cur (interface_stats st));
      [|exact H].
    destruct (field_update (strip raw_line)) as [f|] eqn:F; [|exact H].
    simpl. apply dict_update_Forall; [|exact H].
    intros k v [N P]. destruct (field_update_ok _ _ F v) as [Q R].
    split; simpl in *; [congruence|auto].
Qed.

Lemma fold_scan_entries_ok (lines : list string) (st : scan_state) :
  Forall entry_ok (interface_stats st) ->
  Forall entry_ok (interface_stats (fold_left scan_line lines st)).
Proof.
  revert st. induction lines as [|l lines IH]; intros st H; simpl;
    [exact H|].
  apply IH, scan_line_entries_ok, H.
Qed.

Lemma scan_lines_entries_ok (lines : list string) :
  Forall entry_ok (interface_stats (scan_lines lines)).
Proof. apply fold_scan_entries_ok. constructor. Qed.


(** ** Order of the keys *)

Lemma scan_line_header (st : scan_state) (raw_line nm : string) :
  interface_match (strip raw_line) = Some nm ->
  scan_line st raw_line =
  {| current_interface := Some nm;
     interface_stats := dict_set nm (Raw.init nm) (interface_stats st) |}.
Proof. intros H. unfold scan_line. now rewrite H. Qed.

Lemma scan_line_other_keys (st : scan_state) (raw_line : string) :
  interface_match (strip raw_line) = None ->
  current_interface (scan_line st raw_line) = current_interface st /\
  dict_keys (interface_stats (scan_line st raw_line))
    = dict_keys (interface_stats st).
Proof.
  intros H. unfold scan_line. rewrite H.
  destruct (current_interface st) as [cur|] eqn:C; [|now rewrite C].
  destruct (negb (is_empty cur) && dict_mem cur (interface_stats st));
    [|now rewrite C].
  destruct (field_update (strip raw_line)); simpl; [|now rewrite C].
  split; [reflexivity|apply dict_keys_update].
Qed.

Lemma first_occurrences_from_ext (seen seen' l : list string) :
  (forall x, existsb (String.eqb x) seen = existsb (String.eqb x) seen') ->
  first_occurrences_from seen l = first_occurrences_from seen' l.
Proof.
  revert seen seen'. induction l as [|x l IH]; intros seen seen' H; simpl;
    [reflexivity|].
  rewrite <- H. destruct (existsb (String.eqb x) seen); [now apply IH|].
  f_equal. apply IH. intros y. simpl. now rewrite H.
Qed.

Lemma fold_scan_keys (lines : list string) (st : scan_state) :
  dict_keys (interface_stats (fold_left scan_line lines st)) =
  (dict_keys (interface_stats st) ++
   first_occurrences_from (dict_keys (interface_stats st))
     (header_names lines))%list.
Proof.
  revert st. induction lines as [|l lines IH]; intros st; simpl.
  - now rewrite app_nil_r.
  - rewrite IH. destruct (interface_match (strip l)) as [nm|] eqn:H.
    + rewrite (scan_line_header st l nm H). simpl.
      rewrite dict_keys_set, <- dict_mem_keys.
      destruct (dict_mem nm (interface_stats st)) eqn:M; [reflexivity|].
      rewrite <- app_assoc. simpl. do 2 f_equal.
      apply first_occurrences_from_ext. intros x.
      rewrite existsb_app. simpl. rewrite orb_false_r. apply orb_comm.
    + destruct (scan_line_other_keys st l H) as [_ ->]. reflexivity.
Qed.

Lemma scan_lines_keys (lines : list string) :
  dict_keys (interface_stats (scan_lines lines))
    = first_occurrences (header_names lines).
Proof. unfold scan_lines. now rewrite fold_scan_keys. Qed.

Lemma first_occurrences_from_spec (seen l : list string) :
  NoDup (first_occurrences_from seen l) /\
  forall x, In x (first_occurrences_from seen l) <->
            In x l /\ existsb (String.eqb x) seen = false.
Proof.
  revert seen. induction l as [|y l IH]; intros seen; simpl.
  - split; [constructor|]. intros x. tauto.
  - destruct (existsb (String.eqb y) seen) eqn:E.
    + destruct (IH seen) as [N I]. split; [exact N|].
      intros x. rewrite I. split.
      * intros [H S]. auto.
      * intros [[<-|H] S]; [congruence|auto].
    + destruct (IH (y :: seen)) as [N I]. split.
      * constructor; [|exact N]. rewrite I. simpl.
        rewrite String.eqb_refl. intros [_ ?]; discriminate.
      * intros x. simpl. rewrite I. simpl.
        destruct (String.eqb_spec x y) as [->|D]; simpl.
        -- split; [auto|]. intros _. now left.
        -- split.
           ++ intros [H|[H S]]; [congruence|auto].
           ++ intros [[H|H] S]; [congruence|auto].
Qed.

(** ** A header starts its record afresh *)

Lemma agree_on_scan_line (nm : string) (s1 s2 : scan_state)
    (raw_line : string) :
  interface_match (strip raw_line) <> Some nm ->
  agree_on nm s1 s2 ->
  agree_on nm (scan_line s1 raw_line) (scan_line s2 raw_line).
Proof.
  intros H K. pose proof K as (C & G & M). unfold scan_line.
  destruct (interface_match (strip raw_line)) as [nm'|].
  - assert (D : nm' <> nm) by congruence.
    split; [reflexivity|]. split; simpl.
    + now rewrite !dict_get_set_other.
    + intros c [= <-]. unfold dict_mem. now rewrite !dict_get_set_same.
  - rewrite <- C. destruct (current_interface s1) as [cur|] eqn:E;
      [|exact K].
    destruct (M cur eq_refl) as [M1 M2]. rewrite M1, M2.
    destruct (negb (is_empty cur)); simpl; [|exact K].
    destruct (field_update (strip raw_line)) as [f|]; simpl; [|exact K].
    split; [reflexivity|]. split; simpl.
    + destruct (String.eqb_spec cur nm) as [->|D].
      * now rewrite !dict_get_update_same, G.
      * now rewrite !dict_get_update_other.
    + intros c [= <-]. now rewrite !dict_mem_update.
Qed.

Lemma agree_on_fold (nm : string) (lines : list string)
    (s1 s2 : scan_state) :
  Forall (fun l => interface_match (strip l) <> Some nm) lines ->
  agree_on nm s1 s2 ->
  agree_on nm (fold_left scan_line lines s1) (fold_left scan_line lines s2).
Proof.
  revert s1 s2. induction lines as [|l lines IH]; intros s1 s2 F A; simpl;
    [exact A|].
  inversion F; subst. apply IH; [assumption|].
  now apply agree_on_scan_line.
Qed.

Lemma agree_on_header (nm : string) (s1 s2 : scan_state)
    (raw_line : string) :
  interface_match (strip raw_line) = Some nm ->
  agree_on nm (scan_line s1 raw_line) (scan_line s2 raw_line).
Proof.
  intros H. rewrite !(scan_line_header _ _ _ H).
  split; [reflexivity|]. split; simpl.
  - now rewrite !dict_get_set_same.
  - intros c [= <-]. unfold dict_mem. now rewrite !dict_get_set_same.
Qed.

(** ** The report views *)

Lemma enumerate1_snd {A : Type} (l : list A) : map snd (enumerate1 l) = l.
Proof.
  unfold enumerate1. generalize 1%nat.
  induction l as [|x l IH]; intros n; simpl; [reflexivity|].
  now rewrite IH.
Qed.

Lemma print_top_10_interfaces (interfaces : list InterfaceData) :
  map row_interface (print_top_10_analysis interfaces) = top_10 interfaces.
Proof.
  unfold print_top_10_analysis. destruct interfaces as [|i l];
    [reflexivity|].
  rewrite map_map. simpl row_interface.
  change (map (fun ri : nat * InterfaceData => snd ri)
            (enumerate1 (top_10 (i :: l)))) with
    (map snd (enumerate1 (top_10 (i :: l)))).
  apply enumerate1_snd.
Qed.

Lemma print_top_5_interfaces (interfaces : list InterfaceData) :
  map row_interface (print_top_5_output_errors interfaces)
    = top_5_output interfaces.
Proof.
  unfold print_top_5_output_errors, top_5_output.
  destruct (output_error_interfaces interfaces) as [|i l] eqn:E;
    [reflexivity|].
  rewrite map_map. simpl row_interface.
  apply (enumerate1_snd (firstn 5 (sorted_desc output_error_ratio (i :: l)))).
Qed.

Lemma print_top_10_status (interfaces : list InterfaceData) (row : top_row) :
  In row (print_top_10_analysis interfaces) ->
  status row = status_of (error_crc_ratio (row_interface row)).
Proof.
  unfold print_top_10_analysis. destruct interfaces as [|i l];
    [contradiction|].
  rewrite in_map_iff. intros [ri [<- _]]. reflexivity.
Qed.

Lemma complete_rows_interfaces (interfaces : list InterfaceData) :
  map fst (complete_rows interfaces) = all_sorted interfaces.
Proof.
  unfold complete_rows, print_complete_analysis.
  destruct interfaces as [|i l]; [reflexivity|].
  simpl rows. rewrite map_map. apply map_id.
Qed.

Lemma complete_rows_classification (interfaces : list InterfaceData)
    (i : InterfaceData) (c : Severity) :
  In (i, c) (complete_rows interfaces) -> c = classification_of i.
Proof.
  unfold complete_rows, print_complete_analysis.
  destruct interfaces as [|j l]; [contradiction|].
  simpl rows. rewrite in_map_iff. intros [x [[= <- <-] _]]. reflexivity.
Qed.

Lemma lex3_Eq (a b : Z * Z * Z) : lex3 a b = Eq -> a = b.
Proof.
  destruct a as [[a1 a2] a3], b as [[b1 b2] b3]. unfold lex3.
  destruct (Z.compare_spec a1 b1); try discriminate.
  destruct (Z.compare_spec a2 b2); try discriminate.
  destruct (Z.compare_spec a3 b3); try discriminate.
  congruence.
Qed.

(** A value equal to [k] compares with anything as [k] does. *)
Lemma py_eq_gt (r k x : pynum) :
  py_eq r k = true -> is_nan x = false -> py_gt r x = py_gt k x.
Proof.
  intros E Nx. destruct (py_eq_not_nan _ _ E) as [Nr Nk].
  apply is_nan_not_nan in Nr, Nk, Nx.
  revert E. unfold py_eq, py_gt, py_lt, SFeqb, SFltb.
  rewrite (SFcompare_lex3 _ _ Nr Nk), (SFcompare_lex3 _ _ Nx Nr),
    (SFcompare_lex3 _ _ Nx Nk).
  destruct (lex3 (float_key (as_float r)) (float_key (as_float k))) eqn:L;
    try discriminate.
  intros _. now rewrite (lex3_Eq _ _ L).
Qed.

Lemma status_of_py_eq (r k : pynum) :
  py_eq r k = true -> status_of r = status_of k.
Proof.
  intros E. unfold status_of.
  now rewrite (py_eq_gt r k (PyFloat f1_0) E eq_refl),
    (py_eq_gt r k (PyFloat f0_1) E eq_refl),
    (py_eq_gt r k (PyFloat f0_01) E eq_refl).
Qed.

Lemma classification_of_py_eq (i j : InterfaceData) :
  py_eq (error_crc_ratio i) (error_crc_ratio j) = true ->
  input_errors i + crc_errors i = input_errors j + crc_errors j ->
  classification_of i = classification_of j.
Proof.
  intros E S. unfold classification_of.
  now rewrite (py_eq_gt _ _ (PyFloat f0_1) E eq_refl),
    (py_eq_gt _ _ (PyFloat f0_01) E eq_refl),
    (py_eq_gt _ _ (PyFloat f0_001) E eq_refl), S.
Qed.

Lemma top_view_of_sorted (key : InterfaceData -> pynum) (n : nat)
    (interfaces : list InterfaceData) :
  Forall (fun i => is_nan (key i) = false) interfaces ->
  is_top_view key n interfaces
    (firstn n (sorted_desc key
                 (filter (fun i => py_gt (key i) PyInt0) interfaces))).
Proof.
  intros H.
  set (kept := filter (fun i => py_gt (key i) PyInt0) interfaces).
  assert (Hk : Forall (fun i => is_nan (key i) = false) kept).
  { apply Forall_forall. intros i Hi. apply filter_In in Hi.
    rewrite Forall_forall in H. now apply H. }
  exists (sorted_desc key kept).
  split; [|split; [|split; [|split; [|split]]]].
  - intros i Hi.
    apply (Permutation_in i (Permutation_sym (sorted_desc_perm key kept)))
      in Hi.
    apply filter_In in Hi. exact Hi.
  - apply Permutation_sym, sorted_desc_perm.
  - now apply sorted_desc_descending.
  - intros k. apply sorted_desc_tied.
  - reflexivity.
  - intros a b. now apply firstn_sorted_desc_top.
Qed.

Lemma py_sum_total (l : list Z) : py_sum l = total l.
Proof.
  unfold py_sum.
  assert (G : forall acc, fold_left Z.add l acc = acc + total l).
  { induction l as [|x l IH]; intros acc; simpl; [lia|].
    rewrite IH. lia. }
  now rewrite G.
Qed.

Lemma dict_get_unique (d : dict) (k : string) (v : Raw.stats) :
  NoDup (dict_keys d) -> In (k, v) d -> dict_get k d = Some v.
Proof.
  unfold dict_keys. induction d as [|[k' v'] d IH]; simpl; [contradiction|].
  intros N [[= -> ->]|H].
  - now rewrite String.eqb_refl.
  - inversion N as [|? ? X Y]; subst.
    destruct (String.eqb_spec k k') as [->|D]; [|now apply IH].
    exfalso. apply X. apply (in_map fst) in H. exact H.
Qed.

Lemma filter_kept_names (d : dict) :
  NoDup (dict_keys d) ->
  map fst (filter (fun kv => passes_filters (snd kv)) d)
    = filter (kept_name d) (dict_keys d).
Proof.
  intros N. unfold dict_keys.
  assert (G : forall d', incl d' d ->
            map fst (filter (fun kv => passes_filters (snd kv)) d')
              = filter (kept_name d) (map fst d')).
  { induction d' as [|[k v] d' IH]; intros I; [reflexivity|].
    simpl. unfold kept_name at 1.
    rewrite (dict_get_unique d k v N (I _ (or_introl eq_refl))).
    rewrite <- IH by (intros x Hx; apply I; now right).
    now destruct (passes_filters v). }
  apply G, incl_refl.
Qed.

(** ** The sample inputs, evaluated *)

Lemma parse_sample_text (filename : string) :
  parse_interface_data filename (Ok sample_text) = ([], [sample_record]).
Proof. vm_compute. reflexivity. Qed.


Lemma parse_boundary_text (filename : string) :
  parse_interface_data filename (Ok boundary_text)
    = ([], [boundary_record]).
Proof. vm_compute. reflexivity. Qed.

Lemma try_body_overflow_text :
  try_body (Ok overflow_text) = Raise OverflowError.
Proof. vm_compute. reflexivity. Qed.


(** The scenarios of the specification. *)

Example parse_empty_text (filename : string) :
  parse_interface_data filename (Ok []) = ([], []).
Proof. reflexivity. Qed.

Example empty_views :
  print_top_10_analysis [] = [] /\ print_top_5_output_errors [] = [] /\
  complete_rows [] = [] /\
  overall_error_crc_ratio (network_wide []) = Ok PyInt0.
Proof. repeat split. Qed.

Example sample_ratio_is_0_08 :
  error_crc_ratio sample_record = PyFloat (float_lit 8 100).
Proof. vm_compute. reflexivity. Qed.

Example parse_low_rate_text (filename : string) :
  parse_interface_data filename (Ok low_rate_text) = ([], []).
Proof. vm_compute. reflexivity. Qed.

Example output_ratio_without_output_packets :
  output_error_ratio boundary_record = PyInt0.
Proof. reflexivity. Qed.

Example tie_text_complete_view :
  map name (snd (parse_interface_data "int_error.txt" (Ok tie_text)))
    = ["Gi0/1"; "Gi0/2"; "Gi0/3"] /\
  map (fun row => (name (fst row), snd row))
      (complete_rows
         (snd (parse_interface_data "int_error.txt" (Ok tie_text))))
    = [("Gi0/2", HIGH); ("Gi0/1", HIGH); ("Gi0/3", HIGH)] /\
  map (fun row => (rank row, name (row_interface row), status row))
      (print_top_10_analysis
         (snd (parse_interface_data "int_error.txt" (Ok tie_text))))
    = [(1%nat, "Gi0/2", MEDIUM); (2%nat, "Gi0/1", MEDIUM);
       (3%nat, "Gi0/3", MEDIUM)].
Proof. vm_compute. repeat split. Qed.

Example repeated_text_keys :
  dict_keys (interface_stats (scan_lines repeated_text)) = ["Gi0/1"; "Gi0/2"]
  /\ option_map Raw.input_packets
       (dict_get "Gi0/1" (interface_stats (scan_lines repeated_text)))
     = Some 7
  /\ option_map Raw.input_errors
       (dict_get "Gi0/1" (interface_stats (scan_lines repeated_text)))
     = Some 0.
Proof. vm_compute. repeat split. Qed.

(** The division of the network-wide statistics is not guarded by the
    [try] of the parser. *)
Example lopsided_text_overall_ratio :
  fst (parse_interface_data "int_error.txt" (Ok lopsided_text)) = [] /\
  overall_error_crc_ratio
    (network_wide
       (snd (parse_interface_data "int_error.txt" (Ok lopsided_text))))
    = Raise OverflowError.
Proof. vm_compute. split; reflexivity. Qed.

(** * The claims *)

(** ** C1 *)

(** C1, as the code has it: in the top-10 table the comparisons are strict,
    so a record whose [error_crc_ratio] is exactly [0.1] is not above the
    [0.1] threshold of HIGH; it is above [0.01] and its status is MEDIUM. *)
Theorem top_10_ratio_0_1_is_MEDIUM (interfaces : list InterfaceData)
    (row : top_row) :
  In row (print_top_10_analysis interfaces) ->
  py_eq (error_crc_ratio (row_interface row)) (PyFloat f0_1) = true ->
  status row = MEDIUM.
Proof.
  intros H E.
  rewrite (print_top_10_status _ _ H), (status_of_py_eq _ _ E).
  vm_compute. reflexivity.
Qed.

Lemma top_10_ratio_0_1_is_MEDIUM_witness :
  status {| rank := 1; row_interface := boundary_record;
            status := status_of (error_crc_ratio boundary_record) |}
    = MEDIUM.
Proof.
  apply (top_10_ratio_0_1_is_MEDIUM
           (snd (parse_interface_data "int_error.txt" (Ok boundary_text)))).
  - rewrite parse_boundary_text. left. reflexivity.
  - vm_compute. reflexivity.
Defined.

(** C1, as stated, fails: the record parsed from [boundary_text] has a
    ratio of exactly [0.1] and its row in the top-10 table is not HIGH. *)
Lemma top_10_ratio_0_1_not_HIGH :
  ~ (forall (interfaces : list InterfaceData) (row : top_row),
       In row (print_top_10_analysis interfaces) ->
       py_eq (error_crc_ratio (row_interface row)) (PyFloat f0_1) = true ->
       status row = HIGH).
Proof.
  intros H.
  specialize (H (snd (parse_interface_data "int_error.txt"
                        (Ok boundary_text)))
                {| rank := 1; row_interface := boundary_record;
                   status := status_of (error_crc_ratio boundary_record) |}).
  rewrite parse_boundary_text in H.
  assert (X : MEDIUM = HIGH); [|discriminate X].
  apply H; [left; reflexivity | vm_compute; reflexivity].
Qed.

(** ** C2 *)






(** ** C3 *)

Lemma parse_interface_data_In (filename : string)
    (file : result (list string)) (i : InterfaceData) :
  In i (snd (parse_interface_data filename file)) ->
  exists data, process_entry data = Ok (Some i).
Proof.
  destruct (parse_interface_data_cases filename file)
    as [(lines & _ & E & _)|[-> _]]; [|contradiction].
  intros H. apply (process_stats_In _ _ E) in H.
  destruct H as (data & _ & P). now exists data.
Qed.

(** C3: every record returned carries the four ratios of the guarded
    formula, [(numerator / denominator) * 100] in float arithmetic when the
    denominator is positive and [0] when it is zero, and the engine never
    raises [ZeroDivisionError]. *)
Theorem ratios_follow_guarded_formula (filename : string)
    (file : result (list string)) (i : InterfaceData) :
  In i (snd (parse_interface_data filename file)) ->
  is_ratio_of (error_crc_ratio i)
    (input_errors i + crc_errors i) (input_packets i) /\
  is_ratio_of (error_ratio i) (input_errors i) (input_packets i) /\
  is_ratio_of (crc_ratio i) (crc_errors i) (input_packets i) /\
  is_ratio_of (output_error_ratio i) (output_errors i) (output_packets i) /\
  (forall d, process_stats d <> Raise ZeroDivisionError).
Proof.
  intros H. destruct (parse_interface_data_In _ _ _ H) as [data P].
  destruct (process_entry_Some _ _ P) as (_ & _ & _ & R1 & R2 & R3 & R4).
  repeat split; try (now apply ratio_pct_spec).
  all: try (intros ?; eapply ratio_pct_spec; eassumption).
  intros d E. apply process_stats_raise in E. discriminate.
Qed.

Lemma ratios_follow_guarded_formula_witness :
  is_ratio_of (error_crc_ratio sample_record) 800 1000000 /\
  is_ratio_of (output_error_ratio boundary_record) 0 0.
Proof.
  split.
  - apply (ratios_follow_guarded_formula "int_error.txt" (Ok sample_text)
             sample_record).
    rewrite parse_sample_text. left. reflexivity.
  - apply (ratios_follow_guarded_formula "int_error.txt" (Ok boundary_text)
             boundary_record).
    rewrite parse_boundary_text. left. reflexivity.
Defined.

(** ** C4 *)

Lemma ratios_ordered_error_crc (l : list InterfaceData) :
  Forall ratios_ordered l ->
  Forall (fun i => is_nan (error_crc_ratio i) = false) l.
Proof. apply Forall_impl. intros i H. apply H. Qed.

Lemma ratios_ordered_output_error (l : list InterfaceData) :
  Forall ratios_ordered l ->
  Forall (fun i => is_nan (output_error_ratio i) = false) l.
Proof. apply Forall_impl. intros i H. apply H. Qed.

(** C4: the records of the complete table are the records returned by the
    parser, rearranged; each has an [error_crc_ratio] at least that of the
    next; and the records that share a ratio keep the order they had. *)
Theorem complete_view_sorted_stable (filename : string)
    (file : result (list string)) :
  let interfaces := snd (parse_interface_data filename file) in
  let view := map fst (complete_rows interfaces) in
  Permutation interfaces view /\
  descending error_crc_ratio view /\
  forall k, tied_with error_crc_ratio k view
            = tied_with error_crc_ratio k interfaces.
Proof.
  intros interfaces view. unfold view.
  rewrite complete_rows_interfaces. unfold all_sorted.
  split; [apply sorted_desc_perm|]. split; [|intros k; apply sorted_desc_tied].
  apply sorted_desc_descending, ratios_ordered_error_crc.
  apply parse_interface_data_ordered.
Qed.

(** ** C5 *)

Lemma lex3_Lt_trans (a b c : Z * Z * Z) :
  lex3 a b = Lt -> lex3 b c = Lt -> lex3 a c = Lt.
Proof.
  destruct a as [[a1 a2] a3], b as [[b1 b2] b3], c as [[c1 c2] c3].
  unfold lex3. intros H1 H2.
  lex3_cases; try congruence; try lia.
Qed.

Lemma py_lt_not_nan (x y : pynum) :
  py_lt x y = true -> is_nan x = false /\ is_nan y = false.
Proof.
  unfold py_lt, SFltb, is_nan.
  destruct (as_float x), (as_float y); simpl; try congruence; auto.
Qed.

Lemma py_lt_trans (x y z : pynum) :
  py_lt x y = true -> py_lt y z = true -> py_lt x z = true.
Proof.
  intros A B.
  destruct (py_lt_not_nan _ _ A) as [Nx Ny].
  destruct (py_lt_not_nan _ _ B) as [_ Nz].
  apply is_nan_not_nan in Nx, Ny, Nz.
  revert A B. unfold py_lt, SFltb.
  rewrite (SFcompare_lex3 _ _ Nx Ny), (SFcompare_lex3 _ _ Ny Nz),
    (SFcompare_lex3 _ _ Nx Nz).
  pose proof (lex3_Lt_trans (float_key (as_float x)) (float_key (as_float y))
                (float_key (as_float z))) as T.
  destruct (lex3 (float_key (as_float x)) (float_key (as_float y)));
    try discriminate.
  destruct (lex3 (float_key (as_float y)) (float_key (as_float z)));
    try discriminate.
  now rewrite T.
Qed.

(** Not being above a threshold rules out being above a larger one. *)
Lemma py_gt_larger (r a b : pynum) :
  py_lt a b = true -> py_gt r a = false -> py_gt r b = false.
Proof.
  intros L A. unfold py_gt in *.
  destruct (py_lt b r) eqn:B; [|reflexivity].
  now rewrite (py_lt_trans _ _ _ L B) in A.
Qed.

(** C5: the classification printed in a row of the complete table follows
    the five-way scheme on [0.1], [0.01], [0.001] and the error count, and
    the scheme is not that of the top-10 table. *)
Theorem complete_view_five_tiers (interfaces : list InterfaceData)
    (i : InterfaceData) (c : Severity) :
  In (i, c) (complete_rows interfaces) ->
  let r := error_crc_ratio i in
  (py_gt r (PyFloat f0_1) = true -> c = CRITICAL) /\
  (py_gt r (PyFloat f0_1) = false -> py_gt r (PyFloat f0_01) = true ->
   c = HIGH) /\
  (py_gt r (PyFloat f0_01) = false -> py_gt r (PyFloat f0_001) = true ->
   c = MEDIUM) /\
  (py_gt r (PyFloat f0_001) = false -> 0 < input_errors i + crc_errors i ->
   c = LOW) /\
  (py_gt r (PyFloat f0_001) = false -> input_errors i + crc_errors i <= 0 ->
   c = GOOD) /\
  (exists j, classification_of j <> status_of (error_crc_ratio j)).
Proof.
  intros H r. rewrite (complete_rows_classification _ _ _ H).
  unfold classification_of. fold r.
  assert (M1 : py_gt r (PyFloat f0_01) = false ->
               py_gt r (PyFloat f0_1) = false)
    by (apply py_gt_larger; vm_compute; reflexivity).
  assert (M2 : py_gt r (PyFloat f0_001) = false ->
               py_gt r (PyFloat f0_01) = false)
    by (apply py_gt_larger; vm_compute; reflexivity).
  repeat split.
  - intros ->. reflexivity.
  - intros -> ->. reflexivity.
  - intros A ->. rewrite (M1 A), A. reflexivity.
  - intros A S. rewrite (M1 (M2 A)), (M2 A), A.
    destruct (Z.ltb_spec 0 (input_errors i + crc_errors i));
      [reflexivity|lia].
  - intros A S. rewrite (M1 (M2 A)), (M2 A), A.
    destruct (Z.ltb_spec 0 (input_errors i + crc_errors i));
      [lia|reflexivity].
  - exists boundary_record. vm_compute. discriminate.
Qed.

Lemma complete_view_five_tiers_witness :
  In (sample_record, HIGH) (complete_rows [sample_record; boundary_record])
  /\ (py_gt (error_crc_ratio sample_record) (PyFloat f0_1) = false ->
      py_gt (error_crc_ratio sample_record) (PyFloat f0_01) = true ->
      HIGH = HIGH).
Proof.
  assert (H : In (sample_record, HIGH)
                (complete_rows [sample_record; boundary_record]))
    by (vm_compute; right; left; reflexivity).
  split; [exact H|].
  apply (complete_view_five_tiers _ _ _ H).
Defined.

(** ** C6 *)

(** C6: the interfaces of the top-10 table are the first ten of the records
    with a positive [error_crc_ratio], ranked by that ratio in descending
    order; those of the top-5 table are the first five of the records with
    a positive [output_error_ratio], ranked by that ratio. *)
Theorem top_views_filter_sort_take (filename : string)
    (file : result (list string)) :
  let interfaces := snd (parse_interface_data filename file) in
  is_top_view error_crc_ratio 10 interfaces
    (map row_interface (print_top_10_analysis interfaces)) /\
  is_top_view output_error_ratio 5 interfaces
    (map row_interface (print_top_5_output_errors interfaces)).
Proof.
  intros interfaces.
  pose proof (parse_interface_data_ordered filename file) as O.
  fold interfaces in O.
  rewrite print_top_10_interfaces, print_top_5_interfaces. split.
  - apply top_view_of_sorted, ratios_ordered_error_crc, O.
  - apply top_view_of_sorted, ratios_ordered_output_error, O.
Qed.

(** ** C7 *)

(** C7: each total of the network-wide statistics is the sum of its field
    over the records, the overall ratio is the guarded formula on the
    totals, and the statistics printed for a non-empty list are these. *)
Theorem network_wide_totals (interfaces : list InterfaceData) :
  let s := network_wide interfaces in
  total_input_packets s = total (map input_packets interfaces) /\
  total_output_packets s = total (map output_packets interfaces) /\
  total_input_errors s = total (map input_errors interfaces) /\
  total_crc_errors s = total (map crc_errors interfaces) /\
  total_output_errors s = total (map output_errors interfaces) /\
  total_input_drops s = total (map input_drops interfaces) /\
  total_output_drops s = total (map output_drops interfaces) /\
  overall_error_crc_ratio s =
    ratio_pct (total (map input_errors interfaces)
               + total (map crc_errors interfaces))
              (total (map input_packets interfaces)) /\
  (total (map input_packets interfaces) = 0 ->
   overall_error_crc_ratio s = Ok PyInt0) /\
  overall_error_crc_ratio s <> Raise ZeroDivisionError /\
  (interfaces <> [] ->
   option_map statistics (print_complete_analysis interfaces) = Some s).
Proof.
  intros s. unfold s, network_wide. simpl.
  rewrite !py_sum_total.
  repeat split; try reflexivity.
  - intros ->. reflexivity.
  - intros E. apply ratio_pct_raise in E. discriminate.
  - intros N. destruct interfaces as [|i l]; [congruence|].
    unfold print_complete_analysis, network_wide. simpl.
    now rewrite !py_sum_total.
Qed.

Lemma network_wide_totals_witness :
  (total (map input_packets []) = 0 ->
   overall_error_crc_ratio (network_wide []) = Ok PyInt0) /\
  ([sample_record; boundary_record] <> [] ->
   option_map statistics
     (print_complete_analysis [sample_record; boundary_record])
   = Some (network_wide [sample_record; boundary_record])).
Proof.
  split.
  - apply (network_wide_totals []).
  - apply (network_wide_totals [sample_record; boundary_record]).
Defined.

(** ** C8 *)

Lemma scan_line_unrecognized (st : scan_state) (raw_line : string) :
  unrecognized raw_line -> scan_line st raw_line = st.
Proof.
  intros [H F]. unfold scan_line. rewrite H, F.
  destruct (current_interface st) as [cur|]; [|reflexivity].
  now destruct (negb (is_empty cur) && dict_mem cur (interface_stats st)).
Qed.

(** C8: a missing file, and any other exception raised while reading or
    processing, ends in a message and the empty list; a line that matches
    no pattern leaves the state of the scan as it was. *)
Theorem parse_failures_degrade_to_empty (filename : string) :
  parse_interface_data filename (Raise FileNotFoundError)
    = ([FileNotFoundMsg filename], []) /\
  (forall file e,
     try_body file = Raise e ->
     snd (parse_interface_data filename file) = [] /\
     exists m, fst (parse_interface_data filename file) = [m]) /\
  (forall st raw_line, unrecognized raw_line -> scan_line st raw_line = st).
Proof.
  split; [reflexivity|]. split; [|apply scan_line_unrecognized].
  intros file e E. unfold parse_interface_data. rewrite E.
  destruct e; simpl; eauto.
Qed.

Lemma parse_failures_degrade_to_empty_witness :
  (snd (parse_interface_data "int_error.txt" (Ok overflow_text)) = [] /\
   exists m,
     fst (parse_interface_data "int_error.txt" (Ok overflow_text)) = [m]) /\
  scan_line (scan_lines sample_text)
            ("  some line the patterns do not know" ++ eol)
    = scan_lines sample_text.
Proof.
  destruct (parse_failures_degrade_to_empty "int_error.txt") as (_ & A & B).
  split.
  - apply (A (Ok overflow_text) OverflowError).
    exact try_body_overflow_text.
  - apply B. split; vm_compute; reflexivity.
Defined.

(** ** C9 *)

(** C9: when a header for [nm] is followed by no other header for [nm],
    the record filed under [nm] at the end is the one a scan starting at
    that header builds, whatever came before it; the header itself resets
    the record to zeros; and the name is filed once. *)
Theorem last_header_wins (before after : list string) (hdr nm : string) :
  interface_match (strip hdr) = Some nm ->
  Forall (fun l => interface_match (strip l) <> Some nm) after ->
  dict_get nm (interface_stats (scan_lines (before ++ [hdr])))
    = Some (Raw.init nm) /\
  dict_get nm (interface_stats (scan_lines (before ++ hdr :: after)))
    = dict_get nm (interface_stats (scan_lines (hdr :: after))) /\
  NoDup (dict_keys (interface_stats (scan_lines (before ++ hdr :: after)))).
Proof.
  intros H F. unfold scan_lines. repeat split.
  - rewrite fold_left_app. simpl.
    rewrite (scan_line_header _ _ _ H). simpl. apply dict_get_set_same.
  - rewrite fold_left_app. simpl.
    apply (agree_on_fold nm after _ _ F), agree_on_header, H.
  - fold (scan_lines (before ++ hdr :: after)). rewrite scan_lines_keys.
    apply first_occurrences_from_spec.
Qed.

Lemma last_header_wins_witness :
  dict_get "Gi0/1" (interface_stats (scan_lines repeated_text))
  = dict_get "Gi0/1" (interface_stats (scan_lines (skipn 7 repeated_text))).
Proof.
  apply (last_header_wins (firstn 7 repeated_text) (skipn 8 repeated_text)
           ("Gi0/1 is down" ++ eol) "Gi0/1").
  - vm_compute. reflexivity.
  - repeat constructor; vm_compute; discriminate.
Defined.

(** ** C10 *)


(** * Further properties *)

(** ** The range of the quotients *)

Lemma digits2_pos_size (p : positive) : digits2_pos p = Pos.size p.
Proof. induction p as [p IH|p IH|]; simpl; congruence. Qed.

Lemma Zdigits2_log2 (m : Z) : 0 < m -> Zdigits2 m = Z.log2 m + 1.
Proof.
  destruct m as [|p|p]; try lia. intros _.
  destruct p as [p|p|]; cbn [Zdigits2 digits2_pos Z.log2];
    rewrite ?digits2_pos_size; lia.
Qed.

Lemma Zdigits2_nonneg (m : Z) : 0 <= Zdigits2 m.
Proof. destruct m; simpl; lia. Qed.

Lemma Zdigits2_mono (a b : Z) : 0 <= a <= b -> Zdigits2 a <= Zdigits2 b.
Proof.
  intros [Ha Hab]. destruct (Z.eq_dec a 0) as [->|Na].
  - apply Zdigits2_nonneg.
  - rewrite !Zdigits2_log2 by lia.
    pose proof (Z.log2_le_mono a b Hab). lia.
Qed.

Lemma Zdigits2_succ (m : Z) : 0 <= m -> Zdigits2 (m + 1) <= Zdigits2 m + 1.
Proof.
  intros H. destruct (Z.eq_dec m 0) as [->|N]; [simpl; lia|].
  rewrite !Zdigits2_log2 by lia.
  pose proof (Z.log2_succ_le m). unfold Z.succ in *. lia.
Qed.

Lemma Zdigits2_shiftr (m n : Z) :
  0 <= m -> 0 <= n ->
  Zdigits2 (Z.shiftr m n) <= Z.max 1 (Zdigits2 m - n).
Proof.
  intros Hm Hn. pose proof (Z.shiftr_nonneg m n) as S.
  destruct (Z.eq_dec (Z.shiftr m n) 0) as [->|N]; [simpl; lia|].
  assert (0 < m).
  { destruct (Z.eq_dec m 0) as [->|]; [|lia].
    rewrite Z.shiftr_0_l in N. congruence. }
  rewrite !Zdigits2_log2 by lia.
  rewrite Z.log2_shiftr by lia. lia.
Qed.

Lemma Zdigits2_shiftl (m n : Z) :
  0 < m -> 0 <= n -> Zdigits2 (Z.shiftl m n) = Zdigits2 m + n.
Proof.
  intros Hm Hn.
  assert (0 < Z.shiftl m n).
  { pose proof (Z.shiftl_nonneg m n).
    destruct (Z.eq_dec (Z.shiftl m n) 0) as [E|]; [|lia].
    apply Z.shiftl_eq_0_iff in E; lia. }
  rewrite !Zdigits2_log2 by lia.
  rewrite Z.log2_shiftl by lia. lia.
Qed.

Lemma shr_1_div2 (mrs : shr_record) :
  0 <= shr_m mrs -> shr_m (shr_1 mrs) = Z.div2 (shr_m mrs).
Proof.
  destruct mrs as [m r s]; simpl.
  destruct m as [|[p|p|]|[p|p|]]; simpl; intros H; try reflexivity; lia.
Qed.

Lemma iter_shr_1_shiftr (n : positive) (mrs : shr_record) :
  0 <= shr_m mrs ->
  shr_m (iter_pos shr_1 n mrs) = Z.shiftr (shr_m mrs) (Z.pos n).
Proof.
  revert mrs. induction n as [n IH|n IH|]; intros mrs H; cbn [iter_pos].
  - rewrite IH by (apply iter_shr_1_nonneg, shr_1_nonneg, H).
    rewrite IH by (apply shr_1_nonneg, H).
    rewrite shr_1_div2 by exact H.
    rewrite Z.div2_spec, !Z.shiftr_shiftr by lia.
    f_equal. lia.
  - rewrite IH by (apply iter_shr_1_nonneg, H).
    rewrite IH by exact H.
    rewrite Z.shiftr_shiftr by lia. f_equal. lia.
  - rewrite shr_1_div2 by exact H. apply Z.div2_spec.
Qed.

(** The exponent and the size of what [shr_fexp] returns. *)
Lemma shr_fexp_bounds (m e : Z) (l : location) :
  0 <= m ->
  0 <= shr_m (fst (shr_fexp prec emax m e l)) /\
  snd (shr_fexp prec emax m e l)
    = Z.max e (fexp prec emax (Zdigits2 m + e)) /\
  Zdigits2 (shr_m (fst (shr_fexp prec emax m e l)))
  + snd (shr_fexp prec emax m e l)
    <= Z.max (snd (shr_fexp prec emax m e l) + 1) (Zdigits2 m + e).
Proof.
  intros H. split; [now apply shr_fexp_nonneg|].
  unfold shr_fexp, shr.
  assert (H0 : shr_m (shr_record_of_loc m l) = m)
    by (destruct l as [|[ | | ]]; reflexivity).
  destruct (fexp prec emax (Zdigits2 m + e) - e) as [|n|n] eqn:E;
    cbn [fst snd].
  - rewrite H0. lia.
  - rewrite iter_shr_1_shiftr, H0 by (rewrite H0; exact H).
    pose proof (Zdigits2_shiftr m (Z.pos n) H ltac:(lia)). lia.
  - rewrite H0. lia.
Qed.

Lemma round_nearest_even_le (m : Z) (l : location) :
  0 <= m -> Zdigits2 (round_nearest_even m l) <= Zdigits2 m + 1.
Proof.
  intros H. pose proof (Zdigits2_succ m H).
  destruct l as [|[ | | ]]; simpl; try lia.
  destruct (Z.even m); lia.
Qed.

(** Rounding a non-negative number of moderate size gives no infinity. *)
Lemma binary_round_aux_finite (s : bool) (m e : Z) (l : location) :
  0 <= m -> e <= 971 -> Zdigits2 m + e <= 1023 ->
  forall s', binary_round_aux prec emax s m e l <> S754_infinity s'.
Proof.
  intros H He Hd s'. unfold binary_round_aux.
  destruct (shr_fexp_bounds m e l H) as (N1 & E1 & D1).
  destruct (shr_fexp prec emax m e l) as [mrs' e'] eqn:S1.
  cbn [fst snd] in N1, E1, D1.
  pose proof (round_nearest_even_nonneg _ (loc_of_shr_record mrs') N1) as N2.
  pose proof (round_nearest_even_le _ (loc_of_shr_record mrs') N1) as L2.
  destruct (shr_fexp_bounds _ e' loc_Exact N2) as (N3 & E3 & _).
  destruct (shr_fexp prec emax _ e' loc_Exact) as [mrs'' e''] eqn:S2.
  cbn [fst snd] in N3, E3.
  destruct (shr_m mrs'') as [|p|p]; try discriminate.
  destruct (Z.leb_spec e'' (emax - prec)) as [|G]; [discriminate|].
  exfalso. revert G E1 E3 D1 L2.
  unfold fexp, emin, prec, emax. lia.
Qed.

Lemma SFdiv_Z2SF_finite (a b : Z) :
  0 <= a < 2 ^ 1023 -> 0 < b ->
  forall s, SFdiv prec emax (Z2SF a) (Z2SF b) <> S754_infinity s.
Proof.
  intros [Ha Hb] Hpos s.
  destruct a as [|p|p], b as [|q|q]; try lia; try discriminate.
  unfold Z2SF, SFdiv.
  destruct (SFdiv_core_binary prec emax (Z.pos p) 0 (Z.pos q) 0)
    as [[mz ez] lz] eqn:E.
  unfold SFdiv_core_binary in E.
  set (e' := Z.min (fexp prec emax (Zdigits2 (Z.pos p) + 0
                                    - (Zdigits2 (Z.pos q) + 0))) (0 - 0))
    in E.
  assert (He' : e' <= 0) by (unfold e'; lia).
  clearbody e'.
  set (m' := match 0 - 0 - e' with
             | 0 => Z.pos p
             | Z.pos _ => Z.shiftl (Z.pos p) (0 - 0 - e')
             | Z.neg _ => 0
             end) in E.
  assert (Hm' : 0 <= m' /\ Zdigits2 m' + e' <= Zdigits2 (Z.pos p)).
  { unfold m'. destruct (0 - 0 - e') as [|n|n] eqn:S; try lia.
    split; [apply Z.shiftl_nonneg; lia|].
    rewrite Zdigits2_shiftl by lia. lia. }
  pose proof (Z.div_eucl_eq m' (Z.pos q) ltac:(lia)) as Q.
  pose proof (Z.mod_pos_bound m' (Z.pos q) ltac:(lia)) as R.
  unfold Z.modulo in R.
  destruct (Z.div_eucl m' (Z.pos q)) as [q0 r0].
  injection E as <- <- <-.
  assert (Hq : 0 <= q0 <= m') by nia.
  assert (Hp : Zdigits2 (Z.pos p) <= 1023).
  { rewrite Zdigits2_log2 by lia.
    assert (Z.log2 (Z.pos p) < 1023) by (apply Z.log2_lt_pow2; lia). lia. }
  apply binary_round_aux_finite; try lia.
  pose proof (Zdigits2_mono q0 m' Hq). lia.
Qed.

(** [a / b] on a non-negative [a] below [2^1023] and a positive [b] raises
    nothing. *)
Lemma py_truediv_Ok (a b : Z) :
  0 <= a < 2 ^ 1023 -> 0 < b -> exists q, py_truediv a b = Ok q.
Proof.
  intros Ha Hb. unfold py_truediv.
  destruct (Z.eqb_spec b 0); [lia|].
  pose proof (SFdiv_Z2SF_finite a b Ha Hb) as F.
  destruct (SFdiv prec emax (Z2SF a) (Z2SF b)) as [s|s| |s m e]; eauto.
  exfalso. exact (F s eq_refl).
Qed.

Lemma ratio_pct_Ok (num den : Z) :
  0 <= num < 2 ^ 1023 -> exists r, ratio_pct num den = Ok r.
Proof.
  intros H. unfold ratio_pct. destruct (Z.ltb_spec 0 den); [|eauto].
  destruct (py_truediv_Ok num den H ltac:(lia)) as [q ->].
  unfold bind. eauto.
Qed.

(** ** The sign of the ratios *)

Lemma binary_round_aux_sign (s : bool) (m e : Z) (l : location) :
  0 <= m ->
  match binary_round_aux prec emax s m e l with
  | S754_zero s' | S754_infinity s' | S754_finite s' _ _ => s' = s
  | S754_nan => False
  end.
Proof.
  intros H. pose proof (binary_round_aux_not_nan s m e l H) as N.
  revert N. unfold binary_round_aux.
  destruct (shr_fexp prec emax m e l) as [mrs' e'].
  destruct (shr_fexp prec emax _ e' loc_Exact) as [mrs'' e''].
  destruct (shr_m mrs'') as [|p|p]; try (intros []); try reflexivity.
  destruct (_ <=? _); reflexivity.
Qed.

Lemma SFdiv_Z2SF_sign (a b : Z) :
  0 <= a -> 0 < b ->
  match SFdiv prec emax (Z2SF a) (Z2SF b) with
  | S754_zero s | S754_infinity s | S754_finite s _ _ => s = false
  | S754_nan => False
  end.
Proof.
  intros Ha Hb. destruct a as [|p|p], b as [|q|q]; try lia;
    try reflexivity.
  unfold Z2SF, SFdiv.
  destruct (SFdiv_core_binary prec emax (Z.pos p) 0 (Z.pos q) 0)
    as [[mz ez] lz] eqn:E.
  apply (binary_round_aux_sign (xorb false false)).
  unfold SFdiv_core_binary in E.
  match type of E with
  | context [Z.div_eucl ?x ?y] =>
      pose proof (Z.div_eucl_eq x y ltac:(lia)) as Q;
      pose proof (Z.mod_pos_bound x y ltac:(lia)) as R;
      unfold Z.modulo in R;
      assert (Hx : 0 <= x);
      [ | destruct (Z.div_eucl x y) as [q0 r0]; inversion E; subst; nia ]
  end.
  match goal with
  | |- 0 <= match ?s with _ => _ end =>
      destruct s; try lia; apply Z.shiftl_nonneg; lia
  end.
Qed.

Lemma py_fmul_f100_sign (q : spec_float) :
  match q with
  | S754_zero s | S754_infinity s | S754_finite s _ _ => s = false
  | S754_nan => False
  end ->
  match py_fmul q f100 with
  | S754_zero s | S754_infinity s | S754_finite s _ _ => s = false
  | S754_nan => False
  end.
Proof.
  unfold py_fmul, f100, SFmul.
  destruct q as [s|s| |s m e]; intros H; try contradiction; subst;
    try reflexivity.
  apply (binary_round_aux_sign (xorb false false)). lia.
Qed.

Lemma nonnegative_of_sign (f : spec_float) :
  match f with
  | S754_zero s | S754_infinity s | S754_finite s _ _ => s = false
  | S754_nan => False
  end -> nonnegative (PyFloat f).
Proof.
  unfold nonnegative, is_nan, py_lt, SFltb. cbn [as_float].
  destruct f as [s|s| |s m e]; intros H; try contradiction; subst;
    split; reflexivity.
Qed.

Lemma py_truediv_sign (a b : Z) (q : spec_float) :
  0 <= a -> 0 < b -> py_truediv a b = Ok q ->
  match q with
  | S754_zero s | S754_infinity s | S754_finite s _ _ => s = false
  | S754_nan => False
  end.
Proof.
  intros Ha Hb. unfold py_truediv. destruct (Z.eqb_spec b 0); [lia|].
  pose proof (SFdiv_Z2SF_sign a b Ha Hb) as S.
  destruct (SFdiv prec emax (Z2SF a) (Z2SF b)); intros [= <-]; exact S.
Qed.

Lemma ratio_pct_nonnegative (num den : Z) (r : pynum) :
  0 <= num -> ratio_pct num den = Ok r -> nonnegative r.
Proof.
  intros Hn. unfold ratio_pct.
  destruct (Z.ltb_spec 0 den) as [Hd|Hd].
  2: { intros [= <-]. split; reflexivity. }
  destruct (py_truediv num den) as [q|e] eqn:E; unfold bind;
    intros [= <-].
  apply nonnegative_of_sign, py_fmul_f100_sign.
  exact (py_truediv_sign _ _ _ Hn Hd E).
Qed.

(** A ratio above zero comes from a positive numerator over a positive
    denominator. *)
Lemma ratio_pct_positive (num den : Z) (r : pynum) :
  0 <= num -> ratio_pct num den = Ok r -> py_gt r PyInt0 = true ->
  0 < num /\ 0 < den.
Proof.
  intros Hn. unfold ratio_pct, py_truediv.
  destruct (Z.ltb_spec 0 den) as [Hd|Hd].
  2: { intros [= <-]. discriminate. }
  destruct (Z.eqb_spec den 0); [lia|].
  destruct (Z.eq_dec num 0) as [->|N]; [|lia].
  destruct den as [|q|q]; try lia.
  cbn. intros [= <-]. discriminate.
Qed.

(** ** Where a returned record comes from *)

Lemma parse_interface_data_origin (filename : string)
    (file : result (list string)) (i : InterfaceData) :
  In i (snd (parse_interface_data filename file)) ->
  exists lines data,
    file = Ok lines /\
    In data (map snd (interface_stats (scan_lines lines))) /\
    raw_nonneg data /\
    process_entry data = Ok (Some i).
Proof.
  destruct (parse_interface_data_cases filename file)
    as [(lines & -> & E & _)|[-> _]]; [|contradiction].
  intros H. apply (process_stats_In _ _ E) in H.
  destruct H as (data & Hd & P). exists lines, data.
  split; [reflexivity|]. split; [exact Hd|]. split; [|exact P].
  pose proof (scan_lines_entries_ok lines) as F.
  rewrite Forall_forall in F. apply in_map_iff in Hd.
  destruct Hd as [[k v] [<- Hkv]]. apply (F _ Hkv).
Qed.



(** X2: no ratio of a returned record is negative or a NaN. *)
Theorem returned_ratios_nonnegative (filename : string)
    (file : result (list string)) (i : InterfaceData) :
  In i (snd (parse_interface_data filename file)) ->
  nonnegative (error_crc_ratio i) /\ nonnegative (error_ratio i) /\
  nonnegative (crc_ratio i) /\ nonnegative (output_error_ratio i).
Proof.
  intros H.
  destruct (parse_interface_data_origin _ _ _ H)
    as (lines & data & _ & _ & N & P).
  destruct (process_entry_Some _ _ P) as (_ & C & _ & R1 & R2 & R3 & R4).
  unfold corresponds in C. unfold raw_nonneg in N.
  destruct C as (_ & _ & _ & _ & _ & Ei & Ec & _ & _ & _ & _ & Eo & _).
  repeat split; eapply ratio_pct_nonnegative; try eassumption; lia.
Qed.

Lemma returned_ratios_nonnegative_witness :
  nonnegative (error_crc_ratio boundary_record) /\
  nonnegative (output_error_ratio boundary_record).
Proof.
  assert (H : In boundary_record
                (snd (parse_interface_data "int_error.txt"
                        (Ok boundary_text))))
    by (rewrite parse_boundary_text; left; reflexivity).
  pose proof (returned_ratios_nonnegative _ _ _ H) as K.
  split; apply K.
Defined.

Lemma In_firstn {A : Type} (n : nat) (l : list A) (x : A) :
  In x (firstn n l) -> In x l.
Proof.
  intros H. rewrite <- (firstn_skipn n l). apply in_or_app. now left.
Qed.

(** X3: a row of the top-10 table stands for an interface that counted at
    least one input or CRC error over at least one input packet, and a row
    of the top-5 table for one that counted at least one output error over
    at least one output packet. *)
Theorem top_rows_have_errors (filename : string)
    (file : result (list string)) (row : top_row) :
  let interfaces := snd (parse_interface_data filename file) in
  (In row (print_top_10_analysis interfaces) ->
   0 < input_errors (row_interface row) + crc_errors (row_interface row) /\
   0 < input_packets (row_interface row)) /\
  (In row (print_top_5_output_errors interfaces) ->
   0 < output_errors (row_interface row) /\
   0 < output_packets (row_interface row)).
Proof.
  intros interfaces.
  assert (G : forall i, In i interfaces ->
            (py_gt (error_crc_ratio i) PyInt0 = true ->
             0 < input_errors i + crc_errors i /\ 0 < input_packets i) /\
            (py_gt (output_error_ratio i) PyInt0 = true ->
             0 < output_errors i /\ 0 < output_packets i)).
  { intros i H.
    destruct (parse_interface_data_origin _ _ _ H)
      as (lines & data & _ & _ & N & P).
    destruct (process_entry_Some _ _ P) as (_ & C & _ & R1 & _ & _ & R4).
    unfold corresponds in C. unfold raw_nonneg in N.
    destruct C as (_ & _ & _ & _ & _ & Ei & Ec & _ & _ & _ & _ & Eo & _).
    assert (A1 : 0 <= input_errors i + crc_errors i) by lia.
    assert (A4 : 0 <= output_errors i) by lia.
    split; intros Q.
    - apply (ratio_pct_positive _ _ _ A1 R1 Q).
    - apply (ratio_pct_positive _ _ _ A4 R4 Q). }
  split; intros H.
  - apply (in_map row_interface) in H.
    rewrite print_top_10_interfaces in H. unfold top_10 in H.
    apply In_firstn in H.
    apply (Permutation_in _ (Permutation_sym (sorted_desc_perm _ _))) in H.
    apply filter_In in H. destruct H as [H Q]. now apply (G _ H).
  - apply (in_map row_interface) in H.
    rewrite print_top_5_interfaces in H. unfold top_5_output in H.
    apply In_firstn in H.
    apply (Permutation_in _ (Permutation_sym (sorted_desc_perm _ _))) in H.
    apply filter_In in H. destruct H as [H Q]. now apply (G _ H).
Qed.

Lemma top_rows_have_errors_witness :
  0 < input_errors boundary_record + crc_errors boundary_record /\
  0 < input_packets boundary_record.
Proof.
  apply (top_rows_have_errors "int_error.txt" (Ok boundary_text)
           {| rank := 1; row_interface := boundary_record;
              status := status_of (error_crc_ratio boundary_record) |}).
  rewrite parse_boundary_text. left. reflexivity.
Defined.

(** ** Runs that raise nothing *)

Lemma pow2_1000_room : 2 ^ 1000 + 2 ^ 1000 < 2 ^ 1023.
Proof. vm_compute. reflexivity. Qed.

Lemma pow10_300_below : 10 ^ 300 < 2 ^ 1000.
Proof. vm_compute. reflexivity. Qed.

Lemma process_entry_Ok (data : Raw.stats) :
  raw_nonneg data -> errors_below (2 ^ 1000) data ->
  exists o, process_entry data = Ok o.
Proof.
  unfold raw_nonneg, errors_below. intros N B.
  pose proof pow2_1000_room as R.
  destruct (passes_filters data) eqn:F.
  2: { rewrite (process_entry_filtered data F). eauto. }
  revert F. unfold passes_filters, process_entry.
  destruct (_ =? 0); [discriminate|].
  destruct (_ <? 100000); [discriminate|]. intros _.
  destruct (ratio_pct_Ok (Raw.input_errors data + Raw.crc_errors data)
              (Raw.input_packets data)) as [r1 ->];
    [lia|].
  destruct (ratio_pct_Ok (Raw.input_errors data) (Raw.input_packets data))
    as [r2 ->]; [lia|].
  destruct (ratio_pct_Ok (Raw.crc_errors data) (Raw.input_packets data))
    as [r3 ->]; [lia|].
  destruct (ratio_pct_Ok (Raw.output_errors data) (Raw.output_packets data))
    as [r4 ->]; [lia|].
  unfold bind. eauto.
Qed.

Lemma process_stats_Ok (d : dict) :
  (forall data, In data (map snd d) -> exists o, process_entry data = Ok o) ->
  exists out, process_stats d = Ok out.
Proof.
  induction d as [|[k v] d IH]; intros H; simpl; [eauto|].
  destruct (H v (or_introl eq_refl)) as [o ->].
  destruct IH as [rest ->]; [intros x Hx; apply H; now right|].
  unfold bind. eauto.
Qed.




(** *** Lines of moderate length *)

Lemma length_lstrip (s : string) : (String.length (lstrip s) <= String.length s)%nat.
Proof.
  induction s as [|c s IH]; simpl; [lia|].
  destruct (is_space c); simpl; lia.
Qed.

Lemma length_rstrip (s : string) : (String.length (rstrip s) <= String.length s)%nat.
Proof.
  induction s as [|c s IH]; simpl; [lia|].
  destruct (is_space c && is_empty (rstrip s)); simpl; lia.
Qed.

Lemma length_strip (s : string) : (String.length (strip s) <= String.length s)%nat.
Proof.
  unfold strip. pose proof (length_rstrip (lstrip s)).
  pose proof (length_lstrip s). lia.
Qed.

Lemma length_span (p : ascii -> bool) (s : string) :
  (String.length (fst (span p s)) + String.length (snd (span p s))
   = String.length s)%nat.
Proof.
  induction s as [|c s IH]; simpl; [reflexivity|].
  destruct (p c); simpl; [|reflexivity].
  destruct (span p s) as [a b]. simpl in *. lia.
Qed.

Lemma length_strip_prefix (l s s' : string) :
  strip_prefix l s = Some s' -> (String.length s' <= String.length s)%nat.
Proof.
  revert s. induction l as [|a l IH]; intros s; simpl.
  - intros [= ->]. lia.
  - destruct s as [|b s]; [discriminate|].
    destruct (Ascii.eqb a b); [|discriminate].
    intros H. apply IH in H. simpl. lia.
Qed.

Lemma digit_value_le_9 (c : ascii) : is_digit c = true -> digit_value c <= 9.
Proof.
  unfold is_digit, digit_value. cbv zeta. intros H.
  apply andb_true_iff in H. destruct H as [_ H].
  apply N.leb_le in H. generalize dependent (code c). intros n H. lia.
Qed.

Lemma int_acc_span_below (s : string) (acc : Z) :
  0 <= acc ->
  int_acc acc (fst (span is_digit s))
  < (acc + 1) * 10 ^ Z.of_nat (String.length (fst (span is_digit s))).
Proof.
  revert acc. induction s as [|c s IH]; intros acc H.
  - simpl. lia.
  - cbn [span]. destruct (is_digit c) eqn:D; [|simpl; lia].
    destruct (span is_digit s) as [a b].
    cbn [fst int_acc String.length] in *.
    pose proof (digit_value_nonneg c D). pose proof (digit_value_le_9 c D).
    specialize (IH (10 * acc + digit_value c) ltac:(lia)).
    rewrite Nat2Z.inj_succ, Z.pow_succ_r by lia.
    assert (0 < 10 ^ Z.of_nat (String.length a))
      by (apply Z.pow_pos_nonneg; lia).
    nia.
Qed.

Lemma match_at_below (p : pattern) (s : string) (g : list Z) (n : nat) :
  match_at p s = Some g -> (String.length s <= n)%nat ->
  Forall (fun z => z < 10 ^ Z.of_nat n) g.
Proof.
  revert s g. induction p as [|[l| |] p IH]; intros s g; simpl.
  - intros [= <-] _. constructor.
  - destruct (strip_prefix l s) as [s'|] eqn:E; [|discriminate].
    intros H L. apply (IH s'); [exact H|].
    apply length_strip_prefix in E. lia.
  - pose proof (int_acc_span_below s 0 (Z.le_refl 0)) as B.
    pose proof (length_span is_digit s) as L.
    destruct (span is_digit s) as [ds s']. cbn [fst snd] in B, L.
    destruct (is_empty ds); [discriminate|].
    destruct (match_at p s') as [g'|] eqn:E; simpl; [|discriminate].
    intros [= <-] Hn. constructor; [|apply (IH s'); [exact E|lia]].
    unfold py_int.
    assert (10 ^ Z.of_nat (String.length ds) <= 10 ^ Z.of_nat n)
      by (apply Z.pow_le_mono_r; lia).
    lia.
  - induction s as [|c s IHs]; simpl.
    + destruct (match_at p "") eqn:E; [|discriminate].
      intros [= <-] L. now apply (IH "").
    + destruct (match_at p (String c s)) eqn:E.
      * intros [= <-] L. now apply (IH (String c s)).
      * destruct (is_newline c); [discriminate|].
        intros H L. apply IHs; [exact H|lia].
Qed.

Lemma re_search_below (p : pattern) (s : string) (g : list Z) (n : nat) :
  re_search p s = Some g -> (String.length s <= n)%nat ->
  Forall (fun z => z < 10 ^ Z.of_nat n) g.
Proof.
  induction s as [|c s IH]; simpl.
  - destruct (match_at p "") eqn:E; [|discriminate].
    intros [= <-] L. now apply (match_at_below p "").
  - destruct (match_at p (String c s)) eqn:E.
    + intros [= <-] L. now apply (match_at_below p (String c s)).
    + intros H L. apply IH; [exact H|lia].
Qed.

Lemma group_below (m : list Z) (k : nat) (b : Z) :
  0 < b -> Forall (fun z => z < b) m -> group m k < b.
Proof.
  intros Hb H. unfold group.
  destruct (nth_in_or_default (pred k) m 0) as [I | ->]; [|exact Hb].
  rewrite Forall_forall in H. now apply H.
Qed.

Lemma field_update_below (line : string) (f : Raw.stats -> Raw.stats)
    (n : nat) :
  field_update line = Some f -> (String.length line <= n)%nat ->
  forall d, raw_below (10 ^ Z.of_nat n) d -> raw_below (10 ^ Z.of_nat n) (f d).
Proof.
  intros F L.
  assert (P : 0 < 10 ^ Z.of_nat n) by (apply Z.pow_pos_nonneg; lia).
  revert F. unfold field_update.
  repeat match goal with
         | |- context [re_search ?p line] =>
             let m := fresh "m" in
             let E := fresh "E" in
             destruct (re_search p line) as [m|] eqn:E;
             [apply (fun H => re_search_below p line m n H L) in E|]
         end; try discriminate.
  all: intros [= <-] [nm ip op ir or ie crc fr ov ig ab oe un idr odr].
  all: unfold raw_below; simpl.
  all: match goal with
       | H : Forall _ ?m |- _ =>
           pose proof (group_below m 1 _ P H);
           pose proof (group_below m 2 _ P H);
           pose proof (group_below m 3 _ P H);
           pose proof (group_below m 4 _ P H);
           pose proof (group_below m 5 _ P H);
           pose proof (group_below m 6 _ P H)
       end; tauto.
Qed.

Lemma scan_line_below (n : nat) (st : scan_state) (raw_line : string) :
  (String.length raw_line <= n)%nat ->
  Forall (fun kv => raw_below (10 ^ Z.of_nat n) (snd kv))
         (interface_stats st) ->
  Forall (fun kv => raw_below (10 ^ Z.of_nat n) (snd kv))
         (interface_stats (scan_line st raw_line)).
Proof.
  intros L H. unfold scan_line.
  assert (P : 0 < 10 ^ Z.of_nat n) by (apply Z.pow_pos_nonneg; lia).
  destruct (interface_match (strip raw_line)) as [nm|]; simpl.
  - apply dict_set_Forall; [|exact H].
    unfold raw_below; simpl. tauto.
  - destruct (current_interface st) as [cur|]; [|exact H].
    destruct (negb (is_empty cur) && dict_mem cur (interface_stats st));
      [|exact H].
    destruct (field_update (strip raw_line)) as [f|] eqn:F; [|exact H].
    simpl. apply dict_update_Forall; [|exact H].
    intros k v. simpl. apply (field_update_below _ _ n F).
    pose proof (length_strip raw_line). lia.
Qed.

Lemma scan_lines_below (n : nat) (lines : list string) :
  Forall (fun l => (String.length l <= n)%nat) lines ->
  Forall (fun kv => raw_below (10 ^ Z.of_nat n) (snd kv))
         (interface_stats (scan_lines lines)).
Proof.
  unfold scan_lines.
  assert (G : forall st,
            Forall (fun l => (String.length l <= n)%nat) lines ->
            Forall (fun kv => raw_below (10 ^ Z.of_nat n) (snd kv))
                   (interface_stats st) ->
            Forall (fun kv => raw_below (10 ^ Z.of_nat n) (snd kv))
                   (interface_stats (fold_left scan_line lines st))).
  { induction lines as [|l lines IH]; intros st F H; simpl; [exact H|].
    inversion F; subst. apply IH; [assumption|].
    now apply scan_line_below. }
  intros F. apply G; [exact F|constructor].
Qed.

(** X5: a readable file whose lines have at most 300 characters is parsed
    without an error message: no number in it is large enough for a
    quotient to overflow, and the list returned is what the metrics loop
    built. *)
Theorem short_lines_never_raise (filename : string) (lines : list string) :
  Forall (fun l => (String.length l <= 300)%nat) lines ->
  fst (parse_interface_data filename (Ok lines)) = [] /\
  process_stats (interface_stats (scan_lines lines))
    = Ok (snd (parse_interface_data filename (Ok lines))).
Proof.
  intros F. pose proof (scan_lines_below 300 lines F) as B.
  pose proof (scan_lines_entries_ok lines) as N.
  rewrite Forall_forall in B, N.
  assert (T : 10 ^ Z.of_nat 300 < 2 ^ 1000) by exact pow10_300_below.
  destruct (process_stats_Ok (interface_stats (scan_lines lines)))
    as [out E].
  { intros data Hd. apply in_map_iff in Hd.
    destruct Hd as [[k v] [<- Hkv]].
    apply process_entry_Ok; [apply (N _ Hkv)|].
    specialize (B _ Hkv). cbn [snd] in *. revert B T.
    unfold raw_below, errors_below.
    generalize (10 ^ Z.of_nat 300) (2 ^ 1000). intros b c. lia. }
  unfold parse_interface_data, try_body, bind. rewrite E. cbn [fst snd].
  split; reflexivity.
Qed.

Lemma short_lines_never_raise_witness :
  fst (parse_interface_data "int_error.txt" (Ok sample_text)) = [].
Proof.
  apply (short_lines_never_raise "int_error.txt" sample_text).
  repeat constructor; vm_compute; discriminate.
Defined.

(** ** The names of the returned records *)

Lemma returned_names (lines : list string) (out : list InterfaceData) :
  process_stats (interface_stats (scan_lines lines)) = Ok out ->
  map name out
  = filter (kept_name (interface_stats (scan_lines lines)))
           (first_occurrences (header_names lines)).
Proof.
  intros E.
  assert (N : NoDup (dict_keys (interface_stats (scan_lines lines))))
    by (rewrite scan_lines_keys; apply first_occurrences_from_spec).
  rewrite (process_stats_names _ _ E), <- scan_lines_keys,
    <- (filter_kept_names _ N).
  apply map_ext_in. intros kv Hkv. apply filter_In in Hkv.
  pose proof (scan_lines_entries_ok lines) as F.
  rewrite Forall_forall in F. apply (F kv), Hkv.
Qed.

(** X6: no two records of the list returned by the parser have the same
    name, and each name is that of a header line of the file. *)
Theorem returned_names_unique (filename : string)
    (file : result (list string)) :
  NoDup (map name (snd (parse_interface_data filename file))) /\
  forall lines i,
    file = Ok lines ->
    In i (snd (parse_interface_data filename file)) ->
    In (name i) (header_names lines).
Proof.
  destruct (parse_interface_data_cases filename file)
    as [(lines & -> & E & _)|[-> _]].
  2: { split; [constructor|]. intros lines i _ []. }
  pose proof (returned_names lines _ E) as R. split.
  - rewrite R. apply NoDup_filter, first_occurrences_from_spec.
  - intros lines' i [= <-] Hi. apply (in_map name) in Hi.
    rewrite R in Hi. apply filter_In in Hi. destruct Hi as [Hi _].
    apply first_occurrences_from_spec in Hi. apply Hi.
Qed.

Lemma returned_names_unique_witness :
  In (name sample_record) (header_names sample_text).
Proof.
  destruct (returned_names_unique "int_error.txt" (Ok sample_text))
    as [_ K].
  apply (K sample_text sample_record eq_refl).
  rewrite parse_sample_text. left. reflexivity.
Defined.

(** ** Ranks *)

Lemma enumerate1_fst {A : Type} (l : list A) :
  map fst (enumerate1 l) = seq 1 (List.length l).
Proof.
  unfold enumerate1. generalize 1%nat.
  induction l as [|x l IH]; intros n; simpl; [reflexivity|].
  now rewrite IH.
Qed.

(** X7: the rows of the top-10 table are numbered 1, 2, ... and there are
    as many as there are records with a positive [error_crc_ratio], up to
    ten; likewise for the top-5 table, up to five. *)
Theorem top_tables_ranks (interfaces : list InterfaceData) :
  map rank (print_top_10_analysis interfaces)
    = seq 1 (Nat.min 10 (List.length (problem_interfaces interfaces))) /\
  map rank (print_top_5_output_errors interfaces)
    = seq 1 (Nat.min 5 (List.length (output_error_interfaces interfaces))).
Proof.
  split.
  - unfold print_top_10_analysis. destruct interfaces as [|i l];
      [reflexivity|].
    rewrite map_map. cbn [rank].
    change (map (fun ri : nat * InterfaceData => fst ri)
              (enumerate1 (top_10 (i :: l))))
      with (map fst (enumerate1 (top_10 (i :: l)))).
    rewrite enumerate1_fst. unfold top_10.
    rewrite length_firstn.
    now rewrite <- (Permutation_length (sorted_desc_perm _ _)).
  - unfold print_top_5_output_errors, top_5_output.
    destruct (output_error_interfaces interfaces) as [|i l] eqn:E;
      [reflexivity|].
    rewrite map_map. cbn [rank].
    change (map (fun ri : nat * InterfaceData => fst ri) ?x)
      with (map fst x).
    rewrite enumerate1_fst, length_firstn.
    now rewrite <- (Permutation_length (sorted_desc_perm _ _)).
Qed.

(** ** The top-10 table inside the complete table *)

Lemma py_ge_not_lt (x y : pynum) :
  is_nan x = false -> is_nan y = false ->
  py_ge x y = true -> py_lt x y = false.
Proof.
  intros Hx Hy. apply is_nan_not_nan in Hx, Hy.
  unfold py_lt, py_ge, SFltb, SFleb.
  rewrite (SFcompare_lex3 _ _ Hx Hy), (SFcompare_lex3 _ _ Hy Hx).
  rewrite (lex3_antisym (float_key (as_float x))).
  destruct (lex3 (float_key (as_float x)) (float_key (as_float y)));
    simpl; congruence.
Qed.

Section SortedFilter.
Context {A : Type} (key : A -> pynum) (keep : A -> bool).

Lemma filter_insert_desc (x : A) (l : list A) :
  is_nan (key x) = false ->
  Forall (fun a => is_nan (key a) = false) l ->
  StronglySorted (fun a b => py_ge (key a) (key b) = true) l ->
  filter keep (insert_desc key x l)
  = if keep x then insert_desc key x (filter keep l) else filter keep l.
Proof.
  intros Hx. induction l as [|y l IH]; intros Hl Hs.
  - simpl. now destruct (keep x).
  - inversion Hl as [|? ? Hy Hl']; subst.
    inversion Hs as [|? ? Hs' Hall]; subst.
    simpl insert_desc. destruct (py_lt (key x) (key y)) eqn:E.
    + simpl. rewrite (IH Hl' Hs').
      destruct (keep x), (keep y); simpl; try reflexivity.
      now rewrite E.
    + simpl. destruct (keep x) eqn:Kx; [|reflexivity].
      destruct (keep y) eqn:Ky; simpl; [now rewrite E|].
      assert (G : forall l', Forall (fun a => is_nan (key a) = false) l' ->
                Forall (fun b => py_ge (key y) (key b) = true) l' ->
                insert_desc key x (filter keep l') = x :: filter keep l').
      { intros l' N Q. destruct (filter keep l') as [|z f] eqn:F;
          [reflexivity|].
        assert (Hz : In z l').
        { apply (proj1 (filter_In keep z l')). rewrite F. now left. }
        rewrite Forall_forall in N, Q. simpl.
        rewrite (py_ge_not_lt (key x) (key z) Hx (N z Hz)); [reflexivity|].
        apply (py_ge_trans _ (key y)); auto.
        now apply py_not_lt_ge. }
      symmetry. apply G; assumption.
Qed.

Lemma filter_sorted_desc (l : list A) :
  Forall (fun a => is_nan (key a) = false) l ->
  filter keep (sorted_desc key l) = sorted_desc key (filter keep l).
Proof.
  induction l as [|x l IH]; intros H; [reflexivity|].
  inversion H; subst. simpl sorted_desc.
  rewrite filter_insert_desc; auto.
  - simpl. rewrite IH by assumption. now destruct (keep x).
  - apply (Permutation_Forall (sorted_desc_perm key l)); assumption.
  - now apply sorted_desc_strongly.
Qed.
End SortedFilter.

(** X8: the interfaces of the top-10 table are the first ten rows of the
    complete table whose ratio is above zero, in the order they have
    there. *)
Theorem top_10_heads_complete_table (filename : string)
    (file : result (list string)) :
  let interfaces := snd (parse_interface_data filename file) in
  map row_interface (print_top_10_analysis interfaces)
  = firstn 10
      (filter (fun i => py_gt (error_crc_ratio i) PyInt0)
              (map fst (complete_rows interfaces))).
Proof.
  intros interfaces.
  rewrite print_top_10_interfaces, complete_rows_interfaces.
  unfold top_10, problem_interfaces, all_sorted.
  rewrite filter_sorted_desc; [reflexivity|].
  apply ratios_ordered_error_crc, parse_interface_data_ordered.
Qed.

(** ** Severities along the tables *)

Lemma py_lt_ge_trans (t b a : pynum) :
  is_nan a = false ->
  py_lt t b = true -> py_ge a b = true -> py_lt t a = true.
Proof.
  intros Na L G. destruct (py_lt_not_nan _ _ L) as [Nt Nb].
  apply is_nan_not_nan in Na, Nt, Nb.
  revert L G. unfold py_lt, py_ge, SFltb, SFleb.
  rewrite (SFcompare_lex3 _ _ Nt Nb), (SFcompare_lex3 _ _ Nb Na),
    (SFcompare_lex3 _ _ Nt Na).
  pose proof (lex3_Lt_trans (float_key (as_float t)) (float_key (as_float b))
                (float_key (as_float a))) as T.
  pose proof (lex3_Eq (float_key (as_float b)) (float_key (as_float a)))
    as Q.
  destruct (lex3 (float_key (as_float t)) (float_key (as_float b))) eqn:L1;
    try discriminate.
  destruct (lex3 (float_key (as_float b)) (float_key (as_float a))) eqn:L2;
    try discriminate; intros _ _.
  - rewrite <- (Q eq_refl), L1. reflexivity.
  - now rewrite T.
Qed.

Lemma status_of_monotone (a b : pynum) :
  is_nan a = false -> py_ge a b = true ->
  (severity_rank (status_of b) <= severity_rank (status_of a))%nat.
Proof.
  intros Na G. unfold status_of, py_gt.
  destruct (py_lt (PyFloat f1_0) b) eqn:B1.
  { rewrite (py_lt_ge_trans _ _ _ Na B1 G). simpl. lia. }
  destruct (py_lt (PyFloat f0_1) b) eqn:B2.
  { rewrite (py_lt_ge_trans _ _ _ Na B2 G).
    destruct (py_lt (PyFloat f1_0) a); simpl; lia. }
  destruct (py_lt (PyFloat f0_01) b) eqn:B3.
  { rewrite (py_lt_ge_trans _ _ _ Na B3 G).
    destruct (py_lt (PyFloat f1_0) a), (py_lt (PyFloat f0_1) a); simpl; lia. }
  destruct (py_lt (PyFloat f1_0) a), (py_lt (PyFloat f0_1) a),
    (py_lt (PyFloat f0_01) a); simpl; lia.
Qed.

Lemma StronglySorted_firstn {A : Type} (R : A -> A -> Prop) (n : nat)
    (l : list A) :
  StronglySorted R l -> StronglySorted R (firstn n l).
Proof.
  revert n. induction l as [|x l IH]; intros n H.
  - rewrite firstn_nil. constructor.
  - destruct n as [|n]; [constructor|]. simpl.
    inversion H as [|? ? Hs Hall]; subst.
    constructor; [now apply IH|].
    rewrite Forall_forall in *. intros y Hy.
    apply Hall. now apply (In_firstn n).
Qed.

Lemma StronglySorted_map_rank {A : Type} (key : A -> pynum)
    (l : list A) :
  Forall (fun a => is_nan (key a) = false) l ->
  StronglySorted (fun a b => py_ge (key a) (key b) = true) l ->
  StronglySorted (fun s t => (severity_rank t <= severity_rank s)%nat)
                 (map (fun a => status_of (key a)) l).
Proof.
  induction l as [|x l IH]; intros N H; simpl; [constructor|].
  inversion N; subst. inversion H as [|? ? Hs Hall]; subst.
  constructor; [now apply IH|].
  rewrite Forall_forall in *. intros s Hs'.
  apply in_map_iff in Hs'. destruct Hs' as [y [<- Hy]].
  apply status_of_monotone; auto.
Qed.

Lemma print_top_10_statuses (interfaces : list InterfaceData) :
  map status (print_top_10_analysis interfaces)
  = map (fun i => status_of (error_crc_ratio i)) (top_10 interfaces).
Proof.
  rewrite <- print_top_10_interfaces, map_map.
  apply map_ext_in. intros row H.
  now apply (print_top_10_status interfaces).
Qed.

Lemma print_top_5_statuses (interfaces : list InterfaceData) :
  map status (print_top_5_output_errors interfaces)
  = map (fun i => status_of (output_error_ratio i)) (top_5_output interfaces).
Proof.
  rewrite <- print_top_5_interfaces, map_map.
  apply map_ext_in. intros row.
  unfold print_top_5_output_errors.
  destruct (output_error_interfaces interfaces); [contradiction|].
  rewrite in_map_iff. intros [ri [<- _]]. reflexivity.
Qed.

(** X9: down the top-10 table, and down the top-5 table, the status never
    gets more severe: every row has a status at least as severe as all
    the rows below it. *)
Theorem top_tables_statuses_descend (filename : string)
    (file : result (list string)) :
  let interfaces := snd (parse_interface_data filename file) in
  StronglySorted (fun s t => (severity_rank t <= severity_rank s)%nat)
                 (map status (print_top_10_analysis interfaces)) /\
  StronglySorted (fun s t => (severity_rank t <= severity_rank s)%nat)
                 (map status (print_top_5_output_errors interfaces)).
Proof.
  intros interfaces.
  pose proof (parse_interface_data_ordered filename file) as O.
  fold interfaces in O.
  rewrite print_top_10_statuses, print_top_5_statuses. split.
  - assert (N : Forall (fun i => is_nan (error_crc_ratio i) = false)
                       (problem_interfaces interfaces)).
    { apply Forall_forall. intros i Hi. apply filter_In in Hi.
      apply ratios_ordered_error_crc in O.
      rewrite Forall_forall in O. now apply O. }
    apply StronglySorted_map_rank.
    + apply Forall_forall. intros i Hi. apply In_firstn in Hi.
      apply (Permutation_in _ (Permutation_sym (sorted_desc_perm _ _)))
        in Hi.
      rewrite Forall_forall in N. now apply N.
    + apply StronglySorted_firstn, sorted_desc_strongly, N.
  - assert (N : Forall (fun i => is_nan (output_error_ratio i) = false)
                       (output_error_interfaces interfaces)).
    { apply Forall_forall. intros i Hi. apply filter_In in Hi.
      apply ratios_ordered_output_error in O.
      rewrite Forall_forall in O. now apply O. }
    apply StronglySorted_map_rank.
    + apply Forall_forall. intros i Hi. apply In_firstn in Hi.
      apply (Permutation_in _ (Permutation_sym (sorted_desc_perm _ _)))
        in Hi.
      rewrite Forall_forall in N. now apply N.
    + apply StronglySorted_firstn, sorted_desc_strongly, N.
Qed.

(** X10: an interface of the top-10 table is classified in the complete
    table at least as severely as its status in the top-10 table says. *)
Theorem complete_table_never_milder (filename : string)
    (file : result (list string)) (row : top_row) :
  In row (print_top_10_analysis
            (snd (parse_interface_data filename file))) ->
  (severity_rank (status row)
   <= severity_rank (classification_of (row_interface row)))%nat.
Proof.
  intros H.
  assert (E : 0 < input_errors (row_interface row)
                  + crc_errors (row_interface row)).
  { apply (in_map row_interface) in H.
    rewrite print_top_10_interfaces in H. unfold top_10 in H.
    apply In_firstn in H.
    apply (Permutation_in _ (Permutation_sym (sorted_desc_perm _ _))) in H.
    apply filter_In in H. destruct H as [H Q].
    destruct (parse_interface_data_origin _ _ _ H)
      as (lines & data & _ & _ & N & P).
    destruct (process_entry_Some _ _ P) as (_ & C & _ & R1 & _).
    unfold corresponds in C. unfold raw_nonneg in N.
    assert (A1 : 0 <= input_errors (row_interface row)
                      + crc_errors (row_interface row)) by lia.
    apply (ratio_pct_positive _ _ _ A1 R1 Q). }
  rewrite (print_top_10_status _ _ H).
  unfold status_of, classification_of.
  set (r := error_crc_ratio (row_interface row)).
  assert (M0 : py_gt r (PyFloat f0_1) = false ->
               py_gt r (PyFloat f1_0) = false)
    by (apply py_gt_larger; vm_compute; reflexivity).
  destruct (py_gt r (PyFloat f0_1)) eqn:G1.
  { destruct (py_gt r (PyFloat f1_0)); simpl; lia. }
  rewrite (M0 eq_refl).
  destruct (py_gt r (PyFloat f0_01)); [simpl; lia|].
  destruct (py_gt r (PyFloat f0_001)); [simpl; lia|].
  destruct (Z.ltb_spec 0 (input_errors (row_interface row)
                          + crc_errors (row_interface row)));
    [simpl; lia|lia].
Qed.

Lemma complete_table_never_milder_witness :
  (severity_rank MEDIUM <= severity_rank HIGH)%nat.
Proof.
  apply (complete_table_never_milder "int_error.txt" (Ok boundary_text)
           {| rank := 1; row_interface := boundary_record;
              status := status_of (error_crc_ratio boundary_record) |}).
  rewrite parse_boundary_text. left. reflexivity.
Defined.

(** ** The network-wide statistics *)

Lemma total_app (l1 l2 : list Z) : total (l1 ++ l2) = total l1 + total l2.
Proof. induction l1 as [|x l1 IH]; simpl; lia. Qed.

Lemma total_perm (l1 l2 : list Z) : Permutation l1 l2 -> total l1 = total l2.
Proof. induction 1; simpl; lia. Qed.

Lemma py_sum_perm {A : Type} (f : A -> Z) (l1 l2 : list A) :
  Permutation l1 l2 -> py_sum (map f l1) = py_sum (map f l2).
Proof.
  intros P. rewrite !py_sum_total. apply total_perm. now apply Permutation_map.
Qed.

Lemma py_sum_app {A : Type} (f : A -> Z) (l1 l2 : list A) :
  py_sum (map f (l1 ++ l2)) = py_sum (map f l1) + py_sum (map f l2).
Proof. rewrite !py_sum_total, map_app. apply total_app. Qed.

Lemma total_nonneg (l : list Z) : Forall (fun z => 0 <= z) l -> 0 <= total l.
Proof. induction 1; simpl; lia. Qed.

(** X11: the network-wide statistics do not depend on the order of the
    records, and each total over two lists put together is the sum of the
    totals over each. *)
Theorem network_wide_order_independent (l1 l2 : list InterfaceData) :
  (Permutation l1 l2 -> network_wide l1 = network_wide l2) /\
  total_input_packets (network_wide (l1 ++ l2))
    = total_input_packets (network_wide l1)
      + total_input_packets (network_wide l2) /\
  total_output_packets (network_wide (l1 ++ l2))
    = total_output_packets (network_wide l1)
      + total_output_packets (network_wide l2) /\
  total_input_errors (network_wide (l1 ++ l2))
    = total_input_errors (network_wide l1)
      + total_input_errors (network_wide l2) /\
  total_crc_errors (network_wide (l1 ++ l2))
    = total_crc_errors (network_wide l1)
      + total_crc_errors (network_wide l2) /\
  total_output_errors (network_wide (l1 ++ l2))
    = total_output_errors (network_wide l1)
      + total_output_errors (network_wide l2) /\
  total_input_drops (network_wide (l1 ++ l2))
    = total_input_drops (network_wide l1)
      + total_input_drops (network_wide l2) /\
  total_output_drops (network_wide (l1 ++ l2))
    = total_output_drops (network_wide l1)
      + total_output_drops (network_wide l2).
Proof.
  split.
  - intros P. unfold network_wide.
    rewrite (py_sum_perm input_packets _ _ P),
      (py_sum_perm output_packets _ _ P),
      (py_sum_perm input_errors _ _ P), (py_sum_perm crc_errors _ _ P),
      (py_sum_perm output_errors _ _ P), (py_sum_perm input_drops _ _ P),
      (py_sum_perm output_drops _ _ P).
    reflexivity.
  - unfold network_wide. cbn. rewrite !py_sum_app. repeat split.
Qed.

Lemma network_wide_order_independent_witness :
  network_wide [sample_record; boundary_record]
  = network_wide (all_sorted [sample_record; boundary_record]).
Proof.
  apply (network_wide_order_independent [sample_record; boundary_record]
           (all_sorted [sample_record; boundary_record])).
  apply sorted_desc_perm.
Defined.

(** X12: over the list returned by the parser no total is negative, the
    overall ratio is the [int] zero exactly when no input packet was
    counted, and when it is computed it is not negative. *)
Theorem network_wide_of_parsed (filename : string)
    (file : result (list string)) :
  let s := network_wide (snd (parse_interface_data filename file)) in
  0 <= total_input_packets s /\ 0 <= total_output_packets s /\
  0 <= total_input_errors s /\ 0 <= total_crc_errors s /\
  0 <= total_output_errors s /\ 0 <= total_input_drops s /\
  0 <= total_output_drops s /\
  (overall_error_crc_ratio s = Ok PyInt0 <-> total_input_packets s = 0) /\
  (forall r, overall_error_crc_ratio s = Ok r -> nonnegative r).
Proof.
  intros s.
  set (l := snd (parse_interface_data filename file)) in *.
  assert (F : forall f : InterfaceData -> Z,
            (forall i, In i l -> 0 <= f i) -> 0 <= py_sum (map f l)).
  { intros f H. rewrite py_sum_total. apply total_nonneg, Forall_forall.
    intros z Hz. apply in_map_iff in Hz. destruct Hz as [i [<- Hi]].
    now apply H. }
  assert (I : forall i, In i l ->
            0 <= input_packets i /\ 0 <= output_packets i /\
            0 <= input_errors i /\ 0 <= crc_errors i /\
            0 <= output_errors i /\ 0 <= input_drops i /\
            0 <= output_drops i).
  { intros i Hi.
    destruct (parse_interface_data_origin _ _ _ Hi)
      as (lines & data & _ & _ & N & P).
    destruct (process_entry_Some _ _ P) as (_ & C & _).
    unfold corresponds in C. unfold raw_nonneg in N. lia. }
  assert (A1 : 0 <= py_sum (map input_packets l))
    by (apply F; intros i Hi; apply (I i Hi)).
  assert (A2 : 0 <= py_sum (map output_packets l))
    by (apply F; intros i Hi; apply (I i Hi)).
  assert (A3 : 0 <= py_sum (map input_errors l))
    by (apply F; intros i Hi; apply (I i Hi)).
  assert (A4 : 0 <= py_sum (map crc_errors l))
    by (apply F; intros i Hi; apply (I i Hi)).
  assert (A5 : 0 <= py_sum (map output_errors l))
    by (apply F; intros i Hi; apply (I i Hi)).
  assert (A6 : 0 <= py_sum (map input_drops l))
    by (apply F; intros i Hi; apply (I i Hi)).
  assert (A7 : 0 <= py_sum (map output_drops l))
    by (apply F; intros i Hi; apply (I i Hi)).
  unfold s, network_wide. cbn.
  repeat (split; [assumption|]). split.
  - unfold ratio_pct.
    destruct (Z.ltb_spec 0 (py_sum (map input_packets l))) as [Hd|Hd].
    + split; [|lia].
      destruct (py_truediv _ _); unfold bind; discriminate.
    + split; [lia|reflexivity].
  - intros r E.
    assert (A : 0 <= py_sum (map input_errors l)
                     + py_sum (map crc_errors l)) by lia.
    apply (ratio_pct_nonnegative _ _ _ A E).
Qed.

Lemma network_wide_of_parsed_witness :
  0 <= total_input_packets
         (network_wide
            (snd (parse_interface_data "int_error.txt" (Ok sample_text)))) /\
  0 <= total_input_errors
         (network_wide
            (snd (parse_interface_data "int_error.txt" (Ok sample_text)))).
Proof.
  pose proof (network_wide_of_parsed "int_error.txt" (Ok sample_text)) as K.
  split; apply K.
Defined.

(** ** The scan, line by line *)

Lemma lstrip_spaces (w s : string) :
  all_chars is_space w = true -> lstrip (w ++ s) = lstrip s.
Proof.
  induction w as [|c w IH]; simpl; [reflexivity|].
  intros H. apply andb_true_iff in H. destruct H as [-> H]. now apply IH.
Qed.

Lemma rstrip_all_spaces (w : string) :
  all_chars is_space w = true -> rstrip w = "".
Proof.
  induction w as [|c w IH]; simpl; [reflexivity|].
  intros H. apply andb_true_iff in H. destruct H as [-> H].
  now rewrite (IH H).
Qed.

Lemma rstrip_spaces (s w : string) :
  all_chars is_space w = true -> rstrip (s ++ w) = rstrip s.
Proof.
  intros H. induction s as [|c s IH]; simpl.
  - now apply rstrip_all_spaces.
  - now rewrite IH.
Qed.

Lemma lstrip_all_spaces (w : string) :
  all_chars is_space w = true -> lstrip w = "".
Proof.
  induction w as [|c w IH]; simpl; [reflexivity|].
  intros H. apply andb_true_iff in H. destruct H as [-> H]. now apply IH.
Qed.

Lemma lstrip_app_spaces (s w : string) :
  all_chars is_space w = true ->
  rstrip (lstrip (s ++ w)) = rstrip (lstrip s).
Proof.
  intros H. induction s as [|c s IH]; simpl.
  - now rewrite lstrip_all_spaces.
  - destruct (is_space c); [exact IH|].
    change (String c (s ++ w)) with (String c s ++ w).
    now apply rstrip_spaces.
Qed.

(** X13: white space at the start and at the end of a line, such as the
    indentation and the end-of-line characters, changes nothing to what the
    scan does with the line. *)
Theorem scan_line_ignores_margins (st : scan_state) (w1 line w2 : string) :
  all_chars is_space w1 = true -> all_chars is_space w2 = true ->
  scan_line st (w1 ++ line ++ w2) = scan_line st line.
Proof.
  intros H1 H2.
  assert (E : strip (w1 ++ line ++ w2) = strip line).
  { unfold strip. rewrite lstrip_spaces by exact H1.
    now apply lstrip_app_spaces. }
  unfold scan_line. now rewrite E.
Qed.

Lemma scan_line_ignores_margins_witness :
  scan_line scan_init ("   " ++ "Gi0/1 is up" ++ eol)
  = scan_line scan_init "Gi0/1 is up".
Proof.
  apply (scan_line_ignores_margins scan_init "   " "Gi0/1 is up" eol);
    reflexivity.
Defined.

Lemma span_spec (p : ascii -> bool) (s : string) :
  s = fst (span p s) ++ snd (span p s) /\
  all_chars p (fst (span p s)) = true.
Proof.
  induction s as [|c s IH]; simpl; [auto|].
  destruct (p c) eqn:E; simpl; [|auto].
  destruct (span p s) as [a b]. simpl in *.
  destruct IH as [IH1 IH2]. rewrite E, IH2. split; [congruence|reflexivity].
Qed.

(** X14: the name taken from a header line starts the line, begins with a
    letter that is followed by at least one more character, holds only
    letters, digits, hyphens, dots and slashes, and is followed by white
    space. *)
Theorem interface_match_name (line nm : string) :
  interface_match line = Some nm ->
  exists c tl rest w,
    nm = String c tl /\ line = nm ++ String w rest /\
    is_alpha c = true /\ is_empty tl = false /\
    all_chars is_name_char tl = true /\ is_space w = true.
Proof.
  unfold interface_match. destruct line as [|c r]; [discriminate|].
  destruct (is_alpha c) eqn:A; [|discriminate].
  destruct (span_spec is_name_char r) as [S1 N1].
  destruct (span is_name_char r) as [tl r1]. cbn [fst snd] in S1, N1.
  destruct (is_empty tl) eqn:T; [discriminate|].
  destruct (span_spec is_space r1) as [S2 N2].
  destruct (span is_space r1) as [w1 r2]. cbn [fst snd] in S2, N2.
  destruct w1 as [|w w1]; [discriminate|]. simpl is_empty. cbv iota.
  destruct (strip_prefix "is" r2) as [r3|]; [|discriminate].
  destruct (span is_space r3) as [w2 r4].
  destruct (is_empty w2); [discriminate|].
  destruct (starts_with "up" r4 || starts_with "down" r4); [|discriminate].
  intros [= <-]. exists c, tl, (w1 ++ r2), w.
  simpl in N2. apply andb_true_iff in N2. destruct N2 as [N2 _].
  repeat split; auto.
  simpl. f_equal. rewrite S1, S2. reflexivity.
Qed.

Lemma interface_match_name_witness :
  exists c tl rest w,
    "Gi0/1" = String c tl /\ "Gi0/1 is up" = "Gi0/1" ++ String w rest /\
    is_alpha c = true /\ is_empty tl = false /\
    all_chars is_name_char tl = true /\ is_space w = true.
Proof.
  apply (interface_match_name "Gi0/1 is up" "Gi0/1"). reflexivity.
Defined.




(** ** The cursor *)

Lemma scan_line_no_cursor (st : scan_state) (raw_line : string) :
  current_interface st = None ->
  interface_match (strip raw_line) = None ->
  scan_line st raw_line = st.
Proof. intros C H. unfold scan_line. now rewrite H, C. Qed.

(** X16: the lines that come before the first header line are skipped: the
    scan of a text is the scan of what starts at its first header. *)
Theorem lines_before_first_header_ignored (before rest : list string) :
  Forall (fun l => interface_match (strip l) = None) before ->
  scan_lines (before ++ rest) = scan_lines rest.
Proof.
  intros F. unfold scan_lines. rewrite fold_left_app. f_equal.
  induction F as [|l before H F IH]; simpl; [reflexivity|].
  now rewrite (scan_line_no_cursor scan_init l eq_refl H).
Qed.

Lemma lines_before_first_header_ignored_witness :
  scan_lines (["Cisco IOS XR Software" ++ eol;
               "     12 input errors, 3 CRC, 0 frame, 0 overrun, 0 ignored, 0 abort"
                 ++ eol] ++ sample_text)
  = scan_lines sample_text.
Proof.
  apply lines_before_first_header_ignored.
  repeat constructor; vm_compute; reflexivity.
Defined.

Lemma interface_match_nonempty (line nm : string) :
  interface_match line = Some nm -> is_empty nm = false.
Proof.
  unfold interface_match. destruct line as [|c r]; [discriminate|].
  destruct (is_alpha c); [|discriminate].
  destruct (span is_name_char r) as [tl r1].
  destruct (is_empty tl); [discriminate|].
  destruct (span is_space r1) as [w1 r2].
  destruct (is_empty w1); [discriminate|].
  destruct (strip_prefix "is" r2) as [r3|]; [|discriminate].
  destruct (span is_space r3) as [w2 r4].
  destruct (is_empty w2); [discriminate|].
  destruct (starts_with "up" r4 || starts_with "down" r4); [|discriminate].
  now intros [= <-].
Qed.

Lemma header_names_cons (l : string) (lines : list string) :
  header_names (l :: lines)
  = (match interface_match (strip l) with
     | Some nm => [nm]
     | None => []
     end ++ header_names lines)%list.
Proof. reflexivity. Qed.

Lemma cursor_invariant_fold (lines : list string) (st : scan_state)
    (seen : list string) :
  match current_interface st with
  | None => seen = [] /\ interface_stats st = []
  | Some c => last seen "" = c /\ is_empty c = false /\
              dict_mem c (interface_stats st) = true
  end ->
  match current_interface (fold_left scan_line lines st) with
  | None => (seen ++ header_names lines)%list = [] /\
            interface_stats (fold_left scan_line lines st) = []
  | Some c => last (seen ++ header_names lines) "" = c /\
              is_empty c = false /\
              dict_mem c (interface_stats (fold_left scan_line lines st))
                = true
  end.
Proof.
  revert st seen. induction lines as [|l lines IH]; intros st seen H.
  - simpl. now rewrite app_nil_r.
  - simpl fold_left. rewrite header_names_cons, app_assoc. apply IH.
    unfold scan_line.
    destruct (interface_match (strip l)) as [nm|] eqn:M; simpl.
    + rewrite last_last. split; [reflexivity|].
      split; [exact (interface_match_nonempty _ _ M)|].
      unfold dict_mem. now rewrite dict_get_set_same.
    + rewrite app_nil_r.
      destruct (current_interface st) as [cur|] eqn:C.
      * destruct H as (L & E & D). rewrite E, D. simpl.
        destruct (field_update (strip l)) as [f|]; simpl.
        -- rewrite dict_mem_update. auto.
        -- rewrite C. auto.
      * rewrite C. exact H.
Qed.

(** X17: after any scan the cursor is unset exactly when no header line was
    seen, and then nothing was recorded; otherwise it is the name of the
    last header line, it is not empty and it has an entry in
    [interface_stats], so the test that guards the field patterns
    succeeds on every line after the first header. *)
Theorem cursor_is_last_header (lines : list string) :
  match current_interface (scan_lines lines) with
  | None => header_names lines = [] /\ interface_stats (scan_lines lines) = []
  | Some c => last (header_names lines) "" = c /\
              negb (is_empty c)
              && dict_mem c (interface_stats (scan_lines lines)) = true
  end.
Proof.
  pose proof (cursor_invariant_fold lines scan_init [] (conj eq_refl eq_refl))
    as H.
  unfold scan_lines. cbn [app] in H.
  destruct (current_interface (fold_left scan_line lines scan_init)).
  - destruct H as (L & E & D). rewrite E, D. auto.
  - exact H.
Qed.

(** X18: a line that is not a header changes no record but, at most, that
    of the current interface: the cursor, the keys and their order, and
    the record of every other name stay as they were. *)
Theorem field_line_touches_current_only (st : scan_state)
    (raw_line : string) :
  interface_match (strip raw_line) = None ->
  current_interface (scan_line st raw_line) = current_interface st /\
  dict_keys (interface_stats (scan_line st raw_line))
    = dict_keys (interface_stats st) /\
  forall k, current_interface st <> Some k ->
            dict_get k (interface_stats (scan_line st raw_line))
            = dict_get k (interface_stats st).
Proof.
  intros H. destruct (scan_line_other_keys st raw_line H) as [C K].
  split; [exact C|]. split; [exact K|].
  intros k N. unfold scan_line. rewrite H.
  destruct (current_interface st) as [cur|]; [|reflexivity].
  destruct (negb (is_empty cur) && dict_mem cur (interface_stats st));
    [|reflexivity].
  destruct (field_update (strip raw_line)) as [f|]; [|reflexivity].
  simpl. apply dict_get_update_other. congruence.
Qed.

Lemma field_line_touches_current_only_witness :
  dict_keys
    (interface_stats
       (scan_line (scan_lines repeated_text)
                  ("  5 minute input rate 0 bits/sec, 5 packets/sec" ++ eol)))
  = dict_keys (interface_stats (scan_lines repeated_text)).
Proof.
  apply (field_line_touches_current_only (scan_lines repeated_text)
           ("  5 minute input rate 0 bits/sec, 5 packets/sec" ++ eol)).
  vm_compute. reflexivity.
Defined.

(** ** The entry point *)




Lemma print_complete_analysis_statistics (interfaces : list InterfaceData)
    (r : complete_report) :
  print_complete_analysis interfaces = Some r ->
  statistics r = network_wide interfaces.
Proof.
  unfold print_complete_analysis. destruct interfaces; [discriminate|].
  now intros [= <-].
Qed.


Lemma top_5_transcript_quiet (interfaces : list InterfaceData) :
  snd (top_5_transcript interfaces) = None.
Proof.
  unfold top_5_transcript.
  now destruct (output_error_interfaces interfaces).
Qed.

Lemma main_filename (argv : list string) :
  match argv with
  | _ :: arg :: _ => arg
  | _ => default_filename
  end = nth 1 argv default_filename.
Proof. destruct argv as [|a [|b argv]]; reflexivity. Qed.

Lemma and_then_quiet (t1 t2 : transcript) :
  snd t1 = None -> snd t2 = None -> snd (and_then t1 t2) = None.
Proof. destruct t1 as [ev1 [e1|]], t2 as [ev2 r2]; simpl; congruence. Qed.

Lemma and_then_last (t : transcript) :
  snd t = None ->
  and_then t ([AnalysisComplete], None)
  = ((fst t ++ [AnalysisComplete])%list, None).
Proof. destruct t as [ev [e|]]; simpl; congruence. Qed.





(** ** Runs on files of moderate size *)

Lemma length_first_occurrences_from (seen l : list string) :
  (List.length (first_occurrences_from seen l) <= List.length l)%nat.
Proof.
  revert seen. induction l as [|x l IH]; intros seen; simpl; [lia|].
  destruct (existsb (String.eqb x) seen).
  - specialize (IH seen). lia.
  - specialize (IH (x :: seen)). simpl. lia.
Qed.

Lemma length_header_names (lines : list string) :
  (List.length (header_names lines) <= List.length lines)%nat.
Proof.
  induction lines as [|l lines IH]; [simpl; lia|].
  rewrite header_names_cons, length_app.
  destruct (interface_match (strip l)); simpl; lia.
Qed.

Lemma length_filter_le {A : Type} (f : A -> bool) (l : list A) :
  (List.length (filter f l) <= List.length l)%nat.
Proof.
  induction l as [|x l IH]; simpl; [lia|]. destruct (f x); simpl; lia.
Qed.

Lemma length_returned (lines : list string) (out : list InterfaceData) :
  process_stats (interface_stats (scan_lines lines)) = Ok out ->
  (List.length out <= List.length lines)%nat.
Proof.
  intros E. rewrite <- (length_map name out), (returned_names lines out E).
  pose proof (length_filter_le
                (kept_name (interface_stats (scan_lines lines)))
                (first_occurrences (header_names lines))).
  pose proof (length_first_occurrences_from [] (header_names lines)).
  pose proof (length_header_names lines).
  unfold first_occurrences in *. lia.
Qed.

Lemma total_below (b : Z) (l : list Z) :
  Forall (fun z => z < b) l -> total l <= Z.of_nat (List.length l) * b.
Proof.
  induction 1 as [|x l Hx H IH]; [simpl; lia|].
  cbn [total List.length]. rewrite Nat2Z.inj_succ. lia.
Qed.

Lemma moderate_room : 2 * (2 ^ 20 * 10 ^ 300) < 2 ^ 1023.
Proof. vm_compute. reflexivity. Qed.

Lemma short_lines_complete (lines : list string) :
  Forall (fun l => (String.length l <= 300)%nat) lines ->
  exists out, process_stats (interface_stats (scan_lines lines)) = Ok out.
Proof.
  intros F. pose proof (scan_lines_below 300 lines F) as B.
  pose proof (scan_lines_entries_ok lines) as N.
  rewrite Forall_forall in B, N.
  pose proof pow10_300_below as T.
  apply process_stats_Ok. intros data Hd. apply in_map_iff in Hd.
  destruct Hd as [[k v] [<- Hkv]].
  apply process_entry_Ok; [apply (N _ Hkv)|].
  specialize (B _ Hkv). cbn [snd] in *.
  change (Z.of_nat 300) with 300 in B. revert B T.
  unfold raw_below, errors_below.
  generalize (10 ^ 300) (2 ^ 1000). intros b c. lia.
Qed.

Lemma main_ends_with_banner (argv : list string)
    (open_file : string -> result (list string)) :
  snd (main argv open_file) = None ->
  last (fst (main argv open_file)) NoData = AnalysisComplete.
Proof.
  unfold main. cbv zeta.
  match goal with
  | |- context [and_then ?b ([AnalysisComplete], None)] => set (body := b)
  end.
  destruct body as [ev [e|]]; [discriminate|]. intros _.
  unfold and_then. cbn [fst snd]. rewrite app_assoc. apply last_last.
Qed.

(** X21: when the file can be read, has at most [2^20] lines and no line
    longer than 300 characters, the run ends without an exception, on the
    closing banner. *)
Theorem main_completes_on_moderate_files (argv : list string)
    (open_file : string -> result (list string)) (lines : list string) :
  open_file (nth 1 argv default_filename) = Ok lines ->
  Forall (fun l => (String.length l <= 300)%nat) lines ->
  Z.of_nat (List.length lines) <= 2 ^ 20 ->
  snd (main argv open_file) = None /\
  last (fst (main argv open_file)) NoData = AnalysisComplete.
Proof.
  intros O F L.
  assert (Q : snd (main argv open_file) = None).
  2: { split; [exact Q|]. now apply main_ends_with_banner. }
  destruct (short_lines_complete lines F) as [out E].
  pose proof (length_returned lines _ E) as Ln.
  pose proof (scan_lines_below 300 lines F) as B.
  pose proof (scan_lines_entries_ok lines) as N.
  assert (Bo : forall i, In i out ->
             0 <= input_errors i < 10 ^ 300 /\
             0 <= crc_errors i < 10 ^ 300).
  { intros i Hi. apply (process_stats_In _ _ E) in Hi.
    destruct Hi as (data & Hd & P).
    destruct (process_entry_Some _ _ P) as (_ & C & _).
    apply in_map_iff in Hd. destruct Hd as [[k v] [<- Hkv]].
    rewrite Forall_forall in B, N.
    specialize (B _ Hkv). destruct (N _ Hkv) as [_ Nv].
    unfold raw_below in B. unfold raw_nonneg in Nv.
    unfold corresponds in C. cbn [snd] in *.
    destruct C as (_ & _ & _ & _ & _ & -> & -> & _).
    change (Z.of_nat 300) with 300 in B. tauto. }
  unfold main. cbv zeta. rewrite main_filename, O.
  unfold parse_interface_data, try_body, bind. rewrite E. cbn [fst snd].
  pose proof moderate_room as R.
  apply and_then_quiet; [reflexivity|].
  apply and_then_quiet; [|reflexivity].
  destruct out as [|i l] eqn:Eo; [reflexivity|]. rewrite <- Eo in *.
  apply and_then_quiet; [reflexivity|].
  apply and_then_quiet; [|apply and_then_quiet].
  - unfold top_10_transcript. rewrite Eo. rewrite <- Eo.
    unfold issues_percentage.
    destruct (py_truediv_Ok (py_len (problem_interfaces out)) (py_len out))
      as [q ->].
    + unfold py_len, problem_interfaces.
      pose proof (length_filter_le
                    (fun i0 => py_gt (error_crc_ratio i0) PyInt0) out).
      assert (2 ^ 20 < 2 ^ 1023) by (vm_compute; reflexivity). lia.
    + unfold py_len. rewrite Eo. simpl List.length. lia.
    + reflexivity.
  - apply top_5_transcript_quiet.
  - unfold complete_transcript.
    destruct (print_complete_analysis out) as [r|] eqn:P; [|reflexivity].
    rewrite (print_complete_analysis_statistics _ _ P).
    unfold network_wide. cbn [overall_error_crc_ratio].
    destruct (ratio_pct_Ok (py_sum (map input_errors out)
                            + py_sum (map crc_errors out))
                (py_sum (map input_packets out))) as [o ->];
      [|reflexivity].
    rewrite !py_sum_total.
    assert (T1 : total (map input_errors out)
                 <= Z.of_nat (List.length (map input_errors out))
                    * 10 ^ 300).
    { apply total_below, Forall_forall. intros z Hz.
      apply in_map_iff in Hz. destruct Hz as [j [<- Hj]].
      apply (Bo j Hj). }
    assert (T2 : total (map crc_errors out)
                 <= Z.of_nat (List.length (map crc_errors out))
                    * 10 ^ 300).
    { apply total_below, Forall_forall. intros z Hz.
      apply in_map_iff in Hz. destruct Hz as [j [<- Hj]].
      apply (Bo j Hj). }
    rewrite length_map in T1, T2.
    assert (N1 : 0 <= total (map input_errors out)).
    { apply total_nonneg, Forall_forall. intros z Hz.
      apply in_map_iff in Hz. destruct Hz as [j [<- Hj]].
      apply (Bo j Hj). }
    assert (N2 : 0 <= total (map crc_errors out)).
    { apply total_nonneg, Forall_forall. intros z Hz.
      apply in_map_iff in Hz. destruct Hz as [j [<- Hj]].
      apply (Bo j Hj). }
    assert (P300 : 0 < 10 ^ 300) by (apply Z.pow_pos_nonneg; lia).
    revert T1 T2 R P300 N1 N2 Ln L.
    generalize (10 ^ 300) (2 ^ 1023) (2 ^ 20).
    intros; nia.
Qed.

Lemma main_completes_on_moderate_files_witness :
  snd (main ["comprehensive_error_analysis.py"; "int_error.txt"]
            (fun _ => Ok tie_text)) = None.
Proof.
  apply (main_completes_on_moderate_files
           ["comprehensive_error_analysis.py"; "int_error.txt"]
           (fun _ => Ok tie_text) tie_text).
  - reflexivity.
  - repeat constructor; vm_compute; discriminate.
  - vm_compute. discriminate.
Defined.

(** ** Runs on the sample inputs *)

Example main_on_boundary_text :
  main ["comprehensive_error_analysis.py"; "int_error.txt"]
       (fun _ => Ok boundary_text)
  = ([Parsing "int_error.txt"; ParsedCount 1;
      Summary 1 1; Percentage f100;
      Top10Table [{| rank := 1; row_interface := boundary_record;
                     status := MEDIUM |}];
      NoOutputErrors;
      CompleteTable [(boundary_record, HIGH)];
      Statistics (network_wide [boundary_record]) (PyFloat f0_1);
      AnalysisComplete], None).
Proof. vm_compute. reflexivity. Qed.

Example main_on_lopsided_text :
  snd (main ["comprehensive_error_analysis.py"; "int_error.txt"]
            (fun _ => Ok lopsided_text))
  = Some OverflowError.
Proof. vm_compute. reflexivity. Qed.

Example main_on_overflow_text :
  main ["comprehensive_error_analysis.py"; "int_error.txt"]
       (fun _ => Ok overflow_text)
  = ([Parsing "int_error.txt"; Printed (ParseErrorMsg OverflowError);
      NoData; AnalysisComplete], None).
Proof. vm_compute. reflexivity. Qed.
